(** * ForestFireRiskFHE: the encrypted-record lifecycle and its decryption protocol

    A shallow embedding of [contracts/ForestFireRiskFHE.sol] and the
    properties of its record store and decryption coordinator.

    Solidity values are modelled as follows: [uint256] and [uint32] are
    integers in [Z] with their range checks written out, [bytes32] is the
    big-endian integer it denotes, [bytes] is a list of bytes, [string] is a
    Rocq string (a sequence of 8-bit characters), a [mapping] is a finite map
    read with the zero value as default, and a transaction is a computation
    that either commits a new state or aborts and leaves the state as it
    was. *)

From Stdlib Require Import ZArith Lia Ascii String.
From stdpp Require Import gmap strings list fin_maps.

Open Scope Z_scope.

(** ** Bytes and words *)

Abbreviation bytes := (list Byte.byte).

Definition Z_of_byte (b : Byte.byte) : Z := Z.of_N (Byte.to_N b).

Definition byte_of_Z (z : Z) : Byte.byte :=
  match Byte.of_N (Z.to_N (z mod 256)) with
  | Some b => b
  | None => Byte.x00
  end.

Definition bytes_of_string (s : string) : bytes := String.list_byte_of_string s.
Definition string_of_bytes (bs : bytes) : string := String.string_of_list_byte bs.

(** Big-endian value of a byte sequence (how the EVM reads a word). *)
Definition be_to_Z (bs : bytes) : Z :=
  fold_left (fun acc b => acc * 256 + Z_of_byte b) bs 0.

(** The [n] low-order bytes of [v], most significant first. *)
Fixpoint Z_to_be (n : nat) (v : Z) : bytes :=
  match n with
  | O => []
  | S k => Z_to_be k (v / 256) ++ [byte_of_Z v]
  end.

Definition uint256_max : Z := 2 ^ 256 - 1.
Definition uint32_mod : Z := 2 ^ 32.

(** ** keccak256

    The contract hashes category labels with the EVM's [keccak256].  It is
    Keccak-f[1600] with rate 136 bytes and the original Keccak padding
    (0x01 .. 0x80).  Lanes are 64-bit integers, the state is the list of
    the 25 lanes in the order [x + 5 * y]. *)

Module Keccak.

Definition mask64 : Z := 2 ^ 64 - 1.

Definition rol64 (x : Z) (n : Z) : Z :=
  Z.land (Z.lor (Z.shiftl x n) (Z.shiftr x (64 - n))) mask64.

Definition round_constants : list Z :=
  [ 0x0000000000000001; 0x0000000000008082; 0x800000000000808A;
    0x8000000080008000; 0x000000000000808B; 0x0000000080000001;
    0x8000000080008081; 0x8000000000008009; 0x000000000000008A;
    0x0000000000000088; 0x0000000080008009; 0x000000008000000A;
    0x000000008000808B; 0x800000000000008B; 0x8000000000008089;
    0x8000000000008003; 0x8000000000008002; 0x8000000000000080;
    0x000000000000800A; 0x800000008000000A; 0x8000000080008081;
    0x8000000000008080; 0x0000000080000001; 0x8000000080008008 ].

(** Rotation offsets, indexed like the state by [x + 5 * y]. *)
Definition rotation_offsets : list Z :=
  [ 0; 1; 62; 28; 27;
    36; 44; 6; 55; 20;
    3; 10; 43; 25; 39;
    41; 45; 15; 21; 8;
    18; 2; 61; 56; 14 ].

Definition lane (st : list Z) (x y : nat) : Z :=
  nth (x mod 5 + 5 * (y mod 5))%nat st 0.

Definition build (f : nat -> nat -> Z) : list Z :=
  map (fun i => f (i mod 5)%nat (i / 5)%nat) (seq 0 25).

Definition theta (st : list Z) : list Z :=
  let C x := Z.lxor (lane st x 0) (Z.lxor (lane st x 1)
               (Z.lxor (lane st x 2) (Z.lxor (lane st x 3) (lane st x 4)))) in
  let D x := Z.lxor (C (x + 4)%nat) (rol64 (C (x + 1)%nat) 1) in
  build (fun x y => Z.lxor (lane st x y) (D x)).

(** rho and pi together: the lane at [(x, y)] moves, rotated, to
    [(y, 2x + 3y)]; read backwards, the lane at [(X, Y)] comes from
    [(x, y) = (X + 3Y, X)]. *)
Definition rho_pi (st : list Z) : list Z :=
  build (fun X Y =>
    let x := ((X + 3 * Y) mod 5)%nat in
    let y := X in
    rol64 (lane st x y) (nth (x + 5 * y)%nat rotation_offsets 0)).

Definition chi (st : list Z) : list Z :=
  build (fun x y =>
    Z.lxor (lane st x y)
      (Z.land (Z.lxor (lane st (x + 1) y) mask64) (lane st (x + 2) y))).

Definition iota (rc : Z) (st : list Z) : list Z :=
  match st with
  | [] => []
  | a :: rest => Z.lxor a rc :: rest
  end.

Definition round (st : list Z) (rc : Z) : list Z :=
  iota rc (chi (rho_pi (theta st))).

Definition permute (st : list Z) : list Z :=
  fold_left round round_constants st.

Definition rate : nat := 136.

(** Little-endian value of up to eight bytes. *)
Definition le_to_Z (bs : list Z) : Z :=
  fold_right (fun b acc => b + 256 * acc) 0 bs.

Fixpoint lanes_of_block (n : nat) (bs : list Z) : list Z :=
  match n with
  | O => []
  | S k => le_to_Z (take 8 bs) :: lanes_of_block k (drop 8 bs)
  end.

Definition xor_block (st : list Z) (blk : list Z) : list Z :=
  let ls := lanes_of_block 17 blk in
  imap (fun i a => Z.lxor a (nth i ls 0)) st.

(** Padding to a multiple of the rate: 0x01, zeros, and 0x80 or-ed into
    the last byte. *)
Definition pad (msg : list Z) : list Z :=
  let q := (rate - length msg mod rate)%nat in
  match q with
  | 1%nat => msg ++ [0x81]
  | _ => msg ++ [0x01] ++ replicate (q - 2) 0 ++ [0x80]
  end.

Fixpoint absorb (blocks : nat) (bs : list Z) (st : list Z) : list Z :=
  match blocks with
  | O => st
  | S k => absorb k (drop rate bs) (permute (xor_block st (take rate bs)))
  end.

Definition le_bytes (l : Z) : list Z :=
  map (fun j => Z.land (Z.shiftr l (8 * Z.of_nat j)) 255) (seq 0 8).

Definition digest (msg : list Z) : list Z :=
  let p := pad msg in
  let st := absorb (length p / rate) p (replicate 25 0) in
  flat_map le_bytes (take 4 st).

End Keccak.

(** [keccak256(data)] read as a [uint256] ([bytes32ToUint] in the contract
    is the conversion [uint256(b)], big-endian). *)
Definition keccak256 (data : bytes) : Z :=
  fold_left (fun acc b => acc * 256 + b) (Keccak.digest (map Z_of_byte data)) 0.

Arguments keccak256 : simpl never.

(** ** ABI decoding of a single [uint32]

    [abi.decode(cleartexts, (uint32))] reads the first 32-byte word and
    aborts when the data is shorter than a word or the word does not fit
    in 32 bits.  [abi.encode] of a [uint32] is that one word. *)

Definition abi_decode_uint32 (data : bytes) : option Z :=
  if (length data <? 32)%nat then None
  else
    let w := be_to_Z (take 32 data) in
    if w <? uint32_mod then Some w else None.

Definition abi_encode_uint32 (v : Z) : bytes := Z_to_be 32 v.

(** ** The FHE library and the decryption oracle

    The contract imports [FHE], [euint32] from [@fhevm/solidity]; that
    library and the ABI decoder for [string[]] are not part of the
    repository.  They are taken as parameters.  An [euint32] is a
    [bytes32] handle, the zero handle being the uninitialised one
    ([FHE.isInitialized], [FHE.toBytes32] are the library's one-line
    wrappers).  The calls that reach the coprocessor, its access control
    or the oracle ([FHE.asEuint32], [FHE.add], [FHE.requestDecryption])
    run on the library's own state, here [oracle]; each may revert (no
    result) and may change that state.  [FHE.checkSignatures] accepts or
    rejects.  [decrypt] is the cleartext a handle stands for; the contract
    never calls it. *)

Abbreviation euint32 := Z (only parsing).

Inductive Selector := sel_decryptData | sel_decryptRiskCategory.

Class Host := {
  abi_decode_string_array : bytes -> option (list string);
  oracle : Type;
  FHE_asEuint32 : Z -> oracle -> option (euint32 * oracle);
  FHE_add : euint32 -> euint32 -> oracle -> option (euint32 * oracle);
  decrypt : euint32 -> Z;
  FHE_requestDecryption : list Z -> Selector -> oracle -> option (Z * oracle);
  FHE_checkSignatures : Z -> bytes -> bytes -> oracle -> bool
}.

Definition FHE_isInitialized (v : euint32) : bool := negb (v =? 0).
Definition FHE_toBytes32 (v : euint32) : Z := v.

(** What the contract relies on from the encryption scheme, whenever a
    call returns: the handle it returns is initialised, and addition is
    homomorphic on 32-bit cleartexts. *)
Class FHELaws (H : Host) : Prop := {
  asEuint32_initialized :
    forall v o h o', FHE_asEuint32 v o = Some (h, o') -> h <> 0;
  add_initialized :
    forall a b o h o', FHE_add a b o = Some (h, o') -> h <> 0;
  decrypt_asEuint32 :
    forall v o h o', 0 <= v < uint32_mod ->
      FHE_asEuint32 v o = Some (h, o') -> decrypt h = v;
  decrypt_add :
    forall a b o h o', FHE_add a b o = Some (h, o') ->
      decrypt h = (decrypt a + decrypt b) mod uint32_mod
}.

(** The library's access control, as far as requests go: a decryption
    request that carries an uninitialised handle reverts. *)
Class RefusesUninitialised (H : Host) : Prop := {
  request_refuses_uninitialised :
    forall cts sel o, 0 ∈ cts -> FHE_requestDecryption cts sel o = None
}.

(** ** Data model *)

Record EncryptedData := mkEncryptedData {
  id : Z;
  encryptedTemperature : euint32;
  encryptedHumidity : euint32;
  encryptedVegetation : euint32;
  encryptedHistoricalFires : euint32;
  timestamp : Z
}.

Record DecryptedData := mkDecryptedData {
  temperature : string;
  humidity : string;
  vegetation : string;
  historicalFires : string;
  isRevealed : bool
}.

(** The zero values a mapping yields for a key never written. *)
Definition zeroEncrypted : EncryptedData := mkEncryptedData 0 0 0 0 0 0.
Definition zeroDecrypted : DecryptedData := mkDecryptedData "" "" "" "" false.

(** The contract's three events, and [DecryptionFulfilled], which the
    library's [checkSignatures] emits from the contract when it accepts. *)
Inductive Event :=
| DataSubmitted (id : Z) (timestamp : Z)
| DecryptionRequested (id : Z)
| DataDecrypted (id : Z)
| DecryptionFulfilled (requestId : Z).

(** Why a call aborted: [require]/[revert] with a reason string, a
    compiler panic (0x11 arithmetic overflow, 0x32 index out of bounds), the
    library's signature check, the ABI decoder (however it gives up), or
    a revert inside another library call. *)
Inductive Failure :=
| Revert (reason : string)
| Panic (code : Z)
| ProofRejected
| DecodeError
| LibraryRevert.

Section Contract.

Context {H : Host}.

(** Contract storage, the oracle's state, and the event log (oldest first). *)
Record State := mkState {
  dataCount : Z;
  encryptedDataset : gmap Z EncryptedData;
  decryptedDataset : gmap Z DecryptedData;
  encryptedRiskCategoryCount : gmap string Z;
  riskCategories : list string;
  requestToDataId : gmap Z Z;
  oracleSt : oracle;
  events : list Event
}.

Definition deployed (o : oracle) : State := mkState 0 ∅ ∅ ∅ [] ∅ o [].

(** Storage reads, with the zero value for absent keys. *)
Definition encryptedAt (s : State) (k : Z) : EncryptedData :=
  default zeroEncrypted (encryptedDataset s !! k).
Definition decryptedAt (s : State) (k : Z) : DecryptedData :=
  default zeroDecrypted (decryptedDataset s !! k).
Definition countAt (s : State) (c : string) : euint32 :=
  default 0 (encryptedRiskCategoryCount s !! c).
Definition requestAt (s : State) (r : Z) : Z :=
  default 0 (requestToDataId s !! r).

(** Storage writes. *)
Definition set_dataCount (n : Z) (s : State) : State :=
  mkState n (encryptedDataset s) (decryptedDataset s) (encryptedRiskCategoryCount s)
    (riskCategories s) (requestToDataId s) (oracleSt s) (events s).
Definition set_encrypted (k : Z) (e : EncryptedData) (s : State) : State :=
  mkState (dataCount s) (<[k := e]> (encryptedDataset s)) (decryptedDataset s)
    (encryptedRiskCategoryCount s) (riskCategories s) (requestToDataId s)
    (oracleSt s) (events s).
Definition set_decrypted (k : Z) (d : DecryptedData) (s : State) : State :=
  mkState (dataCount s) (encryptedDataset s) (<[k := d]> (decryptedDataset s))
    (encryptedRiskCategoryCount s) (riskCategories s) (requestToDataId s)
    (oracleSt s) (events s).
Definition set_count (c : string) (v : euint32) (s : State) : State :=
  mkState (dataCount s) (encryptedDataset s) (decryptedDataset s)
    (<[c := v]> (encryptedRiskCategoryCount s)) (riskCategories s)
    (requestToDataId s) (oracleSt s) (events s).
Definition push_category (c : string) (s : State) : State :=
  mkState (dataCount s) (encryptedDataset s) (decryptedDataset s)
    (encryptedRiskCategoryCount s) (riskCategories s ++ [c])
    (requestToDataId s) (oracleSt s) (events s).
Definition set_request (r : Z) (target : Z) (s : State) : State :=
  mkState (dataCount s) (encryptedDataset s) (decryptedDataset s)
    (encryptedRiskCategoryCount s) (riskCategories s)
    (<[r := target]> (requestToDataId s)) (oracleSt s) (events s).
Definition set_oracle (o : oracle) (s : State) : State :=
  mkState (dataCount s) (encryptedDataset s) (decryptedDataset s)
    (encryptedRiskCategoryCount s) (riskCategories s) (requestToDataId s)
    o (events s).
Definition log_event (e : Event) (s : State) : State :=
  mkState (dataCount s) (encryptedDataset s) (decryptedDataset s)
    (encryptedRiskCategoryCount s) (riskCategories s) (requestToDataId s)
    (oracleSt s) (events s ++ [e]).

(** Field updates of a [DecryptedData] held in storage. *)
Definition with_temperature (v : string) (d : DecryptedData) : DecryptedData :=
  mkDecryptedData v (humidity d) (vegetation d) (historicalFires d) (isRevealed d).
Definition with_humidity (v : string) (d : DecryptedData) : DecryptedData :=
  mkDecryptedData (temperature d) v (vegetation d) (historicalFires d) (isRevealed d).
Definition with_vegetation (v : string) (d : DecryptedData) : DecryptedData :=
  mkDecryptedData (temperature d) (humidity d) v (historicalFires d) (isRevealed d).
Definition with_historicalFires (v : string) (d : DecryptedData) : DecryptedData :=
  mkDecryptedData (temperature d) (humidity d) (vegetation d) v (isRevealed d).
Definition with_isRevealed (v : bool) (d : DecryptedData) : DecryptedData :=
  mkDecryptedData (temperature d) (humidity d) (vegetation d) (historicalFires d) v.

(** ** Execution of a function body

    A body runs statement by statement on the state.  When it aborts, the
    state reached so far is kept in the outcome, so that one can say how
    far the body got; [call] below discards it, as the EVM does. *)

Inductive Outcome (A : Type) :=
| Ok (a : A) (s : State)
| Abort (f : Failure) (s : State).
Arguments Ok {A} a s.
Arguments Abort {A} f s.

Definition M (A : Type) : Type := State -> Outcome A.

Definition ret {A} (a : A) : M A := fun s => Ok a s.
Definition bind {A B} (m : M A) (k : A -> M B) : M B :=
  fun s => match m s with
           | Ok a s' => k a s'
           | Abort f s' => Abort f s'
           end.
Definition abort {A} (f : Failure) : M A := fun s => Abort f s.
Definition gets {A} (f : State -> A) : M A := fun s => Ok (f s) s.
Definition modify (f : State -> State) : M unit := fun s => Ok tt (f s).

Notation "x <- m ;; k" := (bind m (fun x => k))
  (at level 100, m at next level, right associativity).
Notation "m ;;; k" := (bind m (fun _ => k))
  (at level 100, right associativity).

Definition require (c : bool) (reason : string) : M unit :=
  if c then ret tt else abort (Revert reason).

Definition emit (e : Event) : M unit := modify (log_event e).

(** [a + b] on [uint256], checked as Solidity 0.8 does. *)
Definition checked_add (a b : Z) : M Z :=
  if a + b <=? uint256_max then ret (a + b) else abort (Panic 0x11).

(** [arr[i]] on a memory array. *)
Definition index {A} (arr : list A) (i : nat) : M A :=
  match arr !! i with
  | Some x => ret x
  | None => abort (Panic 0x32)
  end.

(** A call into the library: its result and the library's new state, or
    an abort when the library reverts. *)
Definition library {A} (f : oracle -> option (A * oracle)) : M A :=
  fun s => match f (oracleSt s) with
           | Some (a, o) => Ok a (set_oracle o s)
           | None => Abort LibraryRevert s
           end.

Definition requestDecryption (cts : list Z) (sel : Selector) : M Z :=
  library (FHE_requestDecryption cts sel).

Definition lib_asEuint32 (v : Z) : M Z := library (FHE_asEuint32 v).

Definition lib_add (a b : Z) : M Z := library (FHE_add a b).

Definition checkSignatures (requestId : Z) (cleartexts proof : bytes) : M unit :=
  fun s => if FHE_checkSignatures requestId cleartexts proof (oracleSt s)
           then Ok tt (log_event (DecryptionFulfilled requestId) s)
           else Abort ProofRejected s.

Definition decode_string_array (cleartexts : bytes) : M (list string) :=
  match abi_decode_string_array cleartexts with
  | Some l => ret l
  | None => abort DecodeError
  end.

Definition decode_uint32 (cleartexts : bytes) : M Z :=
  match abi_decode_uint32 cleartexts with
  | Some v => ret v
  | None => abort DecodeError
  end.

(** ** The contract's functions *)

Definition submitEncryptedData
    (eT eH eV eF : euint32) (now : Z) : M unit :=
  c <- gets dataCount ;;
  c' <- checked_add c 1 ;;
  modify (set_dataCount c') ;;;
  newId <- gets dataCount ;;
  modify (set_encrypted newId (mkEncryptedData newId eT eH eV eF now)) ;;;
  modify (set_decrypted newId (mkDecryptedData "" "" "" "" false)) ;;;
  emit (DataSubmitted newId now).

(** The source line that declares [ciphertexts] is cut short
    ([bytes32 ;]); the four assignments that follow fix it as an array of
    four words.  [onlyDataProvider] runs the body unchanged. *)
Definition requestDataDecryption (dataId : Z) : M unit :=
  data <- gets (fun s => encryptedAt s dataId) ;;
  revealed <- gets (fun s => isRevealed (decryptedAt s dataId)) ;;
  require (negb revealed) "Already decrypted" ;;;
  let ciphertexts :=
    [ FHE_toBytes32 (encryptedTemperature data);
      FHE_toBytes32 (encryptedHumidity data);
      FHE_toBytes32 (encryptedVegetation data);
      FHE_toBytes32 (encryptedHistoricalFires data) ] in
  reqId <- requestDecryption ciphertexts sel_decryptData ;;
  modify (set_request reqId dataId) ;;;
  emit (DecryptionRequested dataId).

Definition computeRiskCategory (dData : DecryptedData) : string := "High".

(** [dData.f = v] through the storage pointer [decryptedDataset[dataId]]. *)
Definition update_decrypted (dataId : Z) (f : DecryptedData -> DecryptedData) : M unit :=
  modify (fun s => set_decrypted dataId (f (decryptedAt s dataId)) s).

Definition decryptData (requestId : Z) (cleartexts proof : bytes) : M unit :=
  dataId <- gets (fun s => requestAt s requestId) ;;
  require (negb (dataId =? 0)) "Invalid request" ;;;
  revealed <- gets (fun s => isRevealed (decryptedAt s dataId)) ;;
  require (negb revealed) "Already decrypted" ;;;
  checkSignatures requestId cleartexts proof ;;;
  results <- decode_string_array cleartexts ;;
  r0 <- index results 0 ;;
  update_decrypted dataId (with_temperature r0) ;;;
  r1 <- index results 1 ;;
  update_decrypted dataId (with_humidity r1) ;;;
  r2 <- index results 2 ;;
  update_decrypted dataId (with_vegetation r2) ;;;
  r3 <- index results 3 ;;
  update_decrypted dataId (with_historicalFires r3) ;;;
  update_decrypted dataId (with_isRevealed true) ;;;
  dData <- gets (fun s => decryptedAt s dataId) ;;
  let riskCategory := computeRiskCategory dData in
  cnt <- gets (fun s => countAt s riskCategory) ;;
  (if negb (FHE_isInitialized cnt)
   then zero <- lib_asEuint32 0 ;;
        modify (set_count riskCategory zero) ;;;
        modify (push_category riskCategory)
   else ret tt) ;;;
  cnt' <- gets (fun s => countAt s riskCategory) ;;
  one <- lib_asEuint32 1 ;;
  sum <- lib_add cnt' one ;;
  modify (set_count riskCategory sum) ;;;
  emit (DataDecrypted dataId).

Definition getDecryptedData (dataId : Z) (s : State)
    : string * string * string * string * bool :=
  let r := decryptedAt s dataId in
  (temperature r, humidity r, vegetation r, historicalFires r, isRevealed r).

Definition getEncryptedRiskCategoryCount (category : string) (s : State) : euint32 :=
  countAt s category.

Definition bytes32ToUint (b : Z) : Z := b.

(** [abi.encodePacked] of one string is the string's bytes. *)
Definition encodePacked (category : string) : bytes := bytes_of_string category.

Definition requestRiskCategoryDecryption (category : string) : M unit :=
  count <- gets (fun s => countAt s category) ;;
  require (FHE_isInitialized count) "Category not found" ;;;
  let ciphertexts := [ FHE_toBytes32 count ] in
  reqId <- requestDecryption ciphertexts sel_decryptRiskCategory ;;
  modify (set_request reqId (bytes32ToUint (keccak256 (encodePacked category)))).

(** The loop of [getCategoryFromHash]: the first label whose hash is [hash]. *)
Fixpoint scanCategories (cats : list string) (hash : Z) : option string :=
  match cats with
  | [] => None
  | c :: rest =>
      if bytes32ToUint (keccak256 (encodePacked c)) =? hash then Some c
      else scanCategories rest hash
  end.

Definition getCategoryFromHash (hash : Z) : M string :=
  cats <- gets riskCategories ;;
  match scanCategories cats hash with
  | Some c => ret c
  | None => abort (Revert "Category not found")
  end.

(** The source decodes [count] and drops it; the model returns it so that
    the decoded value can be talked about. *)
Definition decryptRiskCategory (requestId : Z) (cleartexts proof : bytes) : M Z :=
  categoryHash <- gets (fun s => requestAt s requestId) ;;
  category <- getCategoryFromHash categoryHash ;;
  checkSignatures requestId cleartexts proof ;;;
  count <- decode_uint32 cleartexts ;;
  ret count.

(** ** Transactions *)

Inductive Receipt (A : Type) :=
| Success (a : A)
| Reverted (f : Failure).
Arguments Success {A} a.
Arguments Reverted {A} f.

(** An external call: commit on success, roll back on abort. *)
Definition call {A} (m : M A) (s : State) : Receipt A * State :=
  match m s with
  | Ok a s' => (Success a, s')
  | Abort f _ => (Reverted f, s)
  end.

(** The state-changing entry points, as an observer sees them arrive.
    [now] is [block.timestamp]. *)
Inductive Tx :=
| TxSubmit (eT eH eV eF : euint32) (now : Z)
| TxRequestData (dataId : Z)
| TxDecryptData (requestId : Z) (cleartexts proof : bytes)
| TxRequestCategory (category : string)
| TxDecryptCategory (requestId : Z) (cleartexts proof : bytes).

Definition exec (tx : Tx) (s : State) : State :=
  match tx with
  | TxSubmit eT eH eV eF now => snd (call (submitEncryptedData eT eH eV eF now) s)
  | TxRequestData dataId => snd (call (requestDataDecryption dataId) s)
  | TxDecryptData r c p => snd (call (decryptData r c p) s)
  | TxRequestCategory category => snd (call (requestRiskCategoryDecryption category) s)
  | TxDecryptCategory r c p => snd (call (decryptRiskCategory r c p) s)
  end.

Definition run (txs : list Tx) (s : State) : State :=
  fold_left (fun st tx => exec tx st) txs s.

(** The record a transaction reveals: the target of a [decryptData]
    callback that commits. *)
Definition reveal_of (tx : Tx) (s : State) : option Z :=
  match tx with
  | TxDecryptData r c p =>
      match decryptData r c p s with
      | Ok _ _ => Some (requestAt s r)
      | Abort _ _ => None
      end
  | _ => None
  end.

(** The ids revealed along a run, oldest first. *)
Fixpoint reveal_history (txs : list Tx) (s : State) : list Z :=
  match txs with
  | [] => []
  | tx :: rest =>
      match reveal_of tx s with
      | Some i => i :: reveal_history rest (exec tx s)
      | None => reveal_history rest (exec tx s)
      end
  end.

(** The ids whose slot is marked revealed. *)
Definition revealed_ids (s : State) : gset Z :=
  dom (filter (fun kv => isRevealed kv.2 = true) (decryptedDataset s)).

(** Ids of the [DataSubmitted] events of a log, in order. *)
Fixpoint submitted_ids (log : list Event) : list Z :=
  match log with
  | [] => []
  | DataSubmitted i _ :: rest => i :: submitted_ids rest
  | _ :: rest => submitted_ids rest
  end.

(** The library calls of one tally update, in the order [decryptData]
    makes them: [asEuint32(0)] when the tally is not initialised, then
    [asEuint32(1)], then [add]; the new tally and the library's state
    after them, or nothing when one of them reverts. *)
Definition tally_increment (cnt : euint32) (o : oracle) : option (euint32 * oracle) :=
  match (if FHE_isInitialized cnt then Some (cnt, o) else FHE_asEuint32 0 o) with
  | Some (base, o1) =>
      match FHE_asEuint32 1 o1 with
      | Some (one, o2) => FHE_add base one o2
      | None => None
      end
  | None => None
  end.

(** The state a committed [decryptData] leaves, in closed form: [sum] and
    [o'] are the tally and the library state its calls returned. *)
Definition revealed_state (s : State) (requestId dataId : Z)
    (r0 r1 r2 r3 : string) (sum : euint32) (o' : oracle) : State :=
  mkState (dataCount s) (encryptedDataset s)
    (<[dataId := mkDecryptedData r0 r1 r2 r3 true]> (decryptedDataset s))
    (<["High" := sum]> (encryptedRiskCategoryCount s))
    (if FHE_isInitialized (countAt s "High")
     then riskCategories s else riskCategories s ++ ["High"])
    (requestToDataId s) o'
    (events s ++ [DecryptionFulfilled requestId; DataDecrypted dataId]).

(** What one transaction can do to the state, and which record it
    reveals.  [exec_step] below shows that [exec] stays within these cases. *)
Inductive step : State -> option Z -> State -> Prop :=
| step_rollback s :
    step s None s
| step_submit s eT eH eV eF now :
    dataCount s + 1 <= uint256_max ->
    step s None
      (log_event (DataSubmitted (dataCount s + 1) now)
         (set_decrypted (dataCount s + 1) zeroDecrypted
            (set_encrypted (dataCount s + 1)
               (mkEncryptedData (dataCount s + 1) eT eH eV eF now)
               (set_dataCount (dataCount s + 1) s))))
| step_request s dataId r o :
    isRevealed (decryptedAt s dataId) = false ->
    step s None
      (log_event (DecryptionRequested dataId) (set_request r dataId (set_oracle o s)))
| step_reveal s requestId dataId r0 r1 r2 r3 sum o' :
    dataId <> 0 ->
    isRevealed (decryptedAt s dataId) = false ->
    tally_increment (countAt s "High") (oracleSt s) = Some (sum, o') ->
    step s (Some dataId) (revealed_state s requestId dataId r0 r1 r2 r3 sum o')
| step_request_category s category r o :
    FHE_isInitialized (countAt s category) = true ->
    step s None
      (set_request r (bytes32ToUint (keccak256 (encodePacked category)))
         (set_oracle o s))
| step_fulfilled s requestId :
    step s None (log_event (DecryptionFulfilled requestId) s).

(** ** Invariants, as predicates on states

    Every id up to [dataCount] has its two entries, written by a submit. *)
Definition slots_allocated (s : State) : Prop :=
  0 <= dataCount s /\
  forall i, 1 <= i <= dataCount s ->
    exists e d, encryptedDataset s !! i = Some e /\ id e = i
                /\ decryptedDataset s !! i = Some d
                /\ DataSubmitted i (timestamp e) ∈ events s.

(** The ids of the [DataSubmitted] events are 1, 2, .., [dataCount]. *)
Definition ids_consecutive (s : State) : Prop :=
  0 <= dataCount s /\ submitted_ids (events s) = seqZ 1 (dataCount s).

(** An unrevealed slot holds the zero value, and a revealed one has its id
    in the reveal history. *)
Definition slots_consistent (s : State) (h : list Z) : Prop :=
  forall i,
    (isRevealed (decryptedAt s i) = false -> decryptedAt s i = zeroDecrypted) /\
    (isRevealed (decryptedAt s i) = true -> i ∈ h /\ i <> 0).

(** With no reveal so far there is no tally and no label; after [n >= 1]
    reveals the tally is initialised, stands for [n] modulo [2^32], and
    "High" is the one known label. *)
Definition tally_counts (s : State) (h : list Z) : Prop :=
  let n := Z.of_nat (length h) in
  (n = 0 /\ countAt s "High" = 0 /\ riskCategories s = []) \/
  (1 <= n /\ countAt s "High" <> 0
   /\ decrypt (countAt s "High") = n mod uint32_mod
   /\ riskCategories s = ["High"]).

(** ** Further predicates on logs and states *)

(** Ids of the [DataDecrypted] events of a log, in order. *)
Fixpoint decrypted_ids (log : list Event) : list Z :=
  match log with
  | [] => []
  | DataDecrypted i :: rest => i :: decrypted_ids rest
  | _ :: rest => decrypted_ids rest
  end.

(** The hash under which a category request is filed. *)
Definition categoryHash (category : string) : Z :=
  bytes32ToUint (keccak256 (encodePacked category)).

(** Every pending target was put there by a request: it is the id of a
    [DecryptionRequested] event or the hash of "High"; and no label but
    "High" has a tally. *)
Definition index_from_requests (s : State) : Prop :=
  (forall c, c <> "High" -> countAt s c = 0) /\
  (forall r, requestAt s r <> 0 ->
     DecryptionRequested (requestAt s r) ∈ events s
     \/ requestAt s r = categoryHash "High").

(** No entry of the record store lies outside [1, dataCount]. *)
Definition no_stray_records (s : State) : Prop :=
  0 <= dataCount s /\
  forall i, ~ (1 <= i <= dataCount s) -> encryptedDataset s !! i = None.

(** Two states with the same contract storage. *)
Definition same_storage (s s' : State) : Prop :=
  dataCount s' = dataCount s /\
  encryptedDataset s' = encryptedDataset s /\
  decryptedDataset s' = decryptedDataset s /\
  encryptedRiskCategoryCount s' = encryptedRiskCategoryCount s /\
  riskCategories s' = riskCategories s /\
  requestToDataId s' = requestToDataId s.

(** Two states with the same record store and the same tallies. *)
Definition same_records (s s' : State) : Prop :=
  dataCount s' = dataCount s /\
  encryptedDataset s' = encryptedDataset s /\
  decryptedDataset s' = decryptedDataset s /\
  encryptedRiskCategoryCount s' = encryptedRiskCategoryCount s /\
  riskCategories s' = riskCategories s.

End Contract.

Arguments Ok {H A} a s.
Arguments Abort {H A} f s.
Arguments Success {A} a.
Arguments Reverted {A} f.

(** ** A reference host

    One concrete set of primitives, to run the contract on examples: the
    ABI head/tail decoding of [string[]]; an ideal encryption, in which the
    32-bit cleartext of a handle is the handle minus one and the string
    behind a handle is read off a table; a library that refuses a request
    carrying an uninitialised handle, numbers the requests it accepts from
    zero and registers the selector and the handles of each; and a
    signature check that accepts exactly the authentic decryption of the
    handles registered under the request id, with its attestation. *)

Definition word_at (data : bytes) (off : Z) : option Z :=
  if (0 <=? off) && (off + 32 <=? Z.of_nat (length data))
  then Some (be_to_Z (take 32 (drop (Z.to_nat off) data)))
  else None.

Definition abi_read_string (data : bytes) (pos : Z) : option string :=
  len ← word_at data pos;
  if pos + 32 + len <=? Z.of_nat (length data)
  then Some (string_of_bytes (take (Z.to_nat len) (drop (Z.to_nat (pos + 32)) data)))
  else None.

Fixpoint abi_read_strings (data : bytes) (base : Z) (n : nat) (i : Z)
    : option (list string) :=
  match n with
  | O => Some []
  | S k =>
      off ← word_at data (base + 32 * i);
      str ← abi_read_string data (base + off);
      rest ← abi_read_strings data base k (i + 1);
      Some (str :: rest)
  end.

Definition ref_decode_string_array (data : bytes) : option (list string) :=
  off ← word_at data 0;
  n ← word_at data off;
  if off + 32 + 32 * n <=? Z.of_nat (length data)
  then abi_read_strings data (off + 32) (Z.to_nat n) 0
  else None.

Definition pad32 (bs : bytes) : bytes :=
  bs ++ replicate ((32 - length bs mod 32) mod 32)%nat Byte.x00.

Definition abi_encode_string (str : string) : bytes :=
  let bs := bytes_of_string str in
  Z_to_be 32 (Z.of_nat (length bs)) ++ pad32 bs.

Fixpoint tail_offsets (start : Z) (tails : list bytes) : list Z :=
  match tails with
  | [] => []
  | t :: rest => start :: tail_offsets (start + Z.of_nat (length t)) rest
  end.

Definition abi_encode_string_array (l : list string) : bytes :=
  let tails := map abi_encode_string l in
  let n := Z.of_nat (length l) in
  Z_to_be 32 32 ++ Z_to_be 32 n
    ++ flat_map (Z_to_be 32) (tail_offsets (32 * n) tails) ++ concat tails.

Record RefOracle := mkRefOracle {
  counterRequest : Z;
  requestedHandles : list (Z * (Selector * list Z))
}.

Definition ref_requestDecryption (cts : list Z) (sel : Selector) (o : RefOracle)
    : option (Z * RefOracle) :=
  if existsb (Z.eqb 0) cts then None
  else Some (counterRequest o,
             mkRefOracle (counterRequest o + 1)
               ((counterRequest o, (sel, cts)) :: requestedHandles o)).

Definition registered (requestId : Z) (l : list (Z * (Selector * list Z)))
    : option (Selector * list Z) :=
  match find (fun p => fst p =? requestId) l with
  | Some p => Some (snd p)
  | None => None
  end.

Definition ref_decrypt (h : Z) : Z := (h - 1) mod uint32_mod.

(** The strings behind the handles of the scenario. *)
Definition ref_cleartext (h : Z) : string :=
  if h =? 11 then "20" else if h =? 12 then "55"
  else if h =? 13 then "0.3" else if h =? 14 then "2" else "".

(** What the oracle answers for registered handles: the strings of a
    record, or the count of a tally, ABI-encoded as the callback named by
    the selector decodes them. *)
Definition ref_authentic (sel : Selector) (hs : list Z) : bytes :=
  match sel with
  | sel_decryptData => abi_encode_string_array (map ref_cleartext hs)
  | sel_decryptRiskCategory => flat_map (fun h => abi_encode_uint32 (ref_decrypt h)) hs
  end.

(** The attestation of the reference oracle: the request id followed by
    a checksum of the cleartexts. *)
Definition checksum (data : bytes) : Z :=
  fold_left (fun acc b => (31 * acc + Z_of_byte b) mod 2 ^ 64) data 7.

Definition ref_proof (requestId : Z) (cleartexts : bytes) : bytes :=
  Z_to_be 32 requestId ++ Z_to_be 8 (checksum cleartexts).

Definition same_bytes (a b : bytes) : bool :=
  (length a =? length b)%nat && (be_to_Z a =? be_to_Z b).

Definition ref_checkSignatures (requestId : Z) (cleartexts proof : bytes)
    (o : RefOracle) : bool :=
  match registered requestId (requestedHandles o) with
  | Some (sel, hs) =>
      same_bytes cleartexts (ref_authentic sel hs)
      && same_bytes proof (ref_proof requestId cleartexts)
  | None => false
  end.

#[export] Instance refHost : Host := {|
  abi_decode_string_array := ref_decode_string_array;
  oracle := RefOracle;
  FHE_asEuint32 := fun v o => Some (1 + v mod uint32_mod, o);
  FHE_add := fun a b o => Some (1 + (ref_decrypt a + ref_decrypt b) mod uint32_mod, o);
  decrypt := ref_decrypt;
  FHE_requestDecryption := ref_requestDecryption;
  FHE_checkSignatures := ref_checkSignatures
|}.

Definition ref_deployed : State := deployed (mkRefOracle 0 []).

(** The scenario of the specification: the four cleartexts of record A. *)
Definition scenario_cleartexts : bytes :=
  abi_encode_string_array ["20"; "55"; "0.3"; "2"].

(** The scenario as a run. *)
Definition scenario_txs : list Tx :=
  [ TxSubmit 11 12 13 14 1700000000;
    TxRequestData 1;
    TxDecryptData 0 scenario_cleartexts (ref_proof 0 scenario_cleartexts) ].

Definition scenario_s0 : State := exec (TxSubmit 11 12 13 14 1700000000) ref_deployed.
Definition scenario_s1 : State := exec (TxRequestData 1) scenario_s0.
Definition scenario_s2 : State :=
  exec (TxDecryptData 0 scenario_cleartexts (ref_proof 0 scenario_cleartexts))
    scenario_s1.

(** Cleartexts that decode to two strings only. *)
Definition short_cleartexts : bytes := abi_encode_string_array ["20"; "55"].



(** * Properties *)

(** ** Test vectors and the scenario *)

Example keccak256_empty :
  keccak256 [] = 0xc5d2460186f7233c927e7db2dcc703c0e500b653ca82273b7bfad8045d85a470.
Proof. vm_compute. reflexivity. Qed.

Example keccak256_abc :
  keccak256 (bytes_of_string "abc") =
  0x4e03657aea45a94fc7d47ba826c8d667c0d1e6e33a64a036ec44f58fa12d6c45.
Proof. vm_compute. reflexivity. Qed.

Example keccak256_High :
  keccak256 (bytes_of_string "High") =
  0x632a47ab72cffbc57fc05323e15d5632ab28b0db1095656188aa0b3bf58f8d5a.
Proof. vm_compute. reflexivity. Qed.

Example ref_decode_scenario :
  ref_decode_string_array scenario_cleartexts = Some ["20"; "55"; "0.3"; "2"].
Proof. vm_compute. reflexivity. Qed.

Example ref_decode_uint32 : abi_decode_uint32 (abi_encode_uint32 7) = Some 7.
Proof. vm_compute. reflexivity. Qed.

Example scenario_run :
  let s1 := exec (TxSubmit 11 12 13 14 1700000000) ref_deployed in
  let s2 := exec (TxRequestData 1) s1 in
  let s3 := exec (TxDecryptData 0 scenario_cleartexts (ref_proof 0 scenario_cleartexts)) s2 in
  events s3 = [DataSubmitted 1 1700000000; DecryptionRequested 1;
               DecryptionFulfilled 0; DataDecrypted 1]
  /\ getDecryptedData 1 s3 = ("20", "55", "0.3", "2", true)
  /\ fst (call (decryptData 0 scenario_cleartexts (ref_proof 0 scenario_cleartexts)) s3)
     = Reverted (Revert "Already decrypted")
  /\ decrypt (getEncryptedRiskCategoryCount "High" s3) = 1.
Proof. vm_compute. repeat split; reflexivity. Qed.

(** The reference library refuses what the scenario does not grant: a
    request for a record that was never submitted, and cleartexts other
    than the registered handles' own. *)
Example scenario_refusals :
  fst (call (requestDataDecryption 7) ref_deployed) = Reverted LibraryRevert
  /\ fst (call (decryptData 0 short_cleartexts (ref_proof 0 short_cleartexts)) scenario_s1)
     = Reverted ProofRejected.
Proof. vm_compute. split; reflexivity. Qed.

Section Properties.

Context {H : Host}.

Ltac run_body :=
  unfold decryptData, requestDataDecryption, submitEncryptedData,
    requestRiskCategoryDecryption, decryptRiskCategory, getCategoryFromHash,
    update_decrypted, requestDecryption, lib_asEuint32, lib_add, library,
    checkSignatures, decode_string_array,
    decode_uint32, checked_add, index, emit, require, bind, gets, modify, ret, abort.

Lemma submit_spec eT eH eV eF now s :
  submitEncryptedData eT eH eV eF now s =
  if dataCount s + 1 <=? uint256_max
  then Ok tt (log_event (DataSubmitted (dataCount s + 1) now)
               (set_decrypted (dataCount s + 1) zeroDecrypted
                 (set_encrypted (dataCount s + 1)
                   (mkEncryptedData (dataCount s + 1) eT eH eV eF now)
                   (set_dataCount (dataCount s + 1) s))))
  else Abort (Panic 0x11) s.
Proof.
  run_body. destruct (dataCount s + 1 <=? uint256_max); reflexivity.
Qed.

Lemma request_spec dataId s :
  requestDataDecryption dataId s =
  if isRevealed (decryptedAt s dataId)
  then Abort (Revert "Already decrypted") s
  else
    let data := encryptedAt s dataId in
    match FHE_requestDecryption
            [ encryptedTemperature data; encryptedHumidity data;
              encryptedVegetation data; encryptedHistoricalFires data ]
            sel_decryptData (oracleSt s) with
    | Some (r, o) =>
        Ok tt (log_event (DecryptionRequested dataId)
                 (set_request r dataId (set_oracle o s)))
    | None => Abort LibraryRevert s
    end.
Proof.
  run_body. destruct (isRevealed (decryptedAt s dataId)); simpl; [reflexivity|].
  unfold FHE_toBytes32. destruct (FHE_requestDecryption _ _ _) as [[r o]|]; reflexivity.
Qed.

(** *** One statement at a time *)

Ltac state_norm :=
  cbv beta iota delta
    [modify revealed_state log_event set_count set_oracle set_decrypted set_encrypted
     set_dataCount set_request push_category
     dataCount encryptedDataset decryptedDataset encryptedRiskCategoryCount
     riskCategories requestToDataId oracleSt events].

Lemma bind_gets {A B} (f : State -> A) (k : A -> M B) s :
  bind (gets f) k s = k (f s) s.
Proof. reflexivity. Qed.

Lemma bind_ret {A B} (a : A) (k : A -> M B) s : bind (ret a) k s = k a s.
Proof. reflexivity. Qed.

Lemma bind_assoc {A B C} (m : M A) (k1 : A -> M B) (k2 : B -> M C) s :
  bind (bind m k1) k2 s = bind m (fun a => bind (k1 a) k2) s.
Proof. unfold bind. destruct (m s); reflexivity. Qed.

Lemma bind_modify {B} (f : State -> State) (k : unit -> M B) s :
  bind (modify f) k s = k tt (f s).
Proof. reflexivity. Qed.

Lemma bind_require {B} (c : bool) reason (k : unit -> M B) s :
  bind (require c reason) k s = if c then k tt s else Abort (Revert reason) s.
Proof. destruct c; reflexivity. Qed.

Lemma bind_checkSignatures {B} requestId cleartexts proof (k : unit -> M B) s :
  bind (checkSignatures requestId cleartexts proof) k s =
  if FHE_checkSignatures requestId cleartexts proof (oracleSt s)
  then k tt (log_event (DecryptionFulfilled requestId) s)
  else Abort ProofRejected s.
Proof.
  unfold bind, checkSignatures. destruct (FHE_checkSignatures _ _ _ _); reflexivity.
Qed.

Lemma bind_decode {B} cleartexts (k : list string -> M B) s :
  bind (decode_string_array cleartexts) k s =
  match abi_decode_string_array cleartexts with
  | Some l => k l s
  | None => Abort DecodeError s
  end.
Proof.
  unfold bind, decode_string_array. destruct (abi_decode_string_array _); reflexivity.
Qed.

Lemma bind_library {A B} (f : oracle -> option (A * oracle)) (k : A -> M B) s :
  bind (library f) k s =
  match f (oracleSt s) with
  | Some (a, o) => k a (set_oracle o s)
  | None => Abort LibraryRevert s
  end.
Proof. unfold bind, library. destruct (f (oracleSt s)) as [[a o]|]; reflexivity. Qed.

(** The five writes through [dData], for any continuation [K]. *)
Lemma store_results_spec dataId results (K : M unit) s :
  bind (index results 0) (fun r0 =>
  bind (update_decrypted dataId (with_temperature r0)) (fun _ =>
  bind (index results 1) (fun r1 =>
  bind (update_decrypted dataId (with_humidity r1)) (fun _ =>
  bind (index results 2) (fun r2 =>
  bind (update_decrypted dataId (with_vegetation r2)) (fun _ =>
  bind (index results 3) (fun r3 =>
  bind (update_decrypted dataId (with_historicalFires r3)) (fun _ =>
  bind (update_decrypted dataId (with_isRevealed true)) (fun _ => K))))))))) s
  = match results with
    | [] => Abort (Panic 0x32) s
    | [r0] =>
        Abort (Panic 0x32)
          (set_decrypted dataId (with_temperature r0 (decryptedAt s dataId)) s)
    | [r0; r1] =>
        Abort (Panic 0x32)
          (set_decrypted dataId
             (with_humidity r1 (with_temperature r0 (decryptedAt s dataId))) s)
    | [r0; r1; r2] =>
        Abort (Panic 0x32)
          (set_decrypted dataId
             (with_vegetation r2
                (with_humidity r1 (with_temperature r0 (decryptedAt s dataId)))) s)
    | r0 :: r1 :: r2 :: r3 :: _ =>
        K (set_decrypted dataId (mkDecryptedData r0 r1 r2 r3 true) s)
    end.
Proof.
  destruct results as [|r0 [|r1 [|r2 [|r3 rest]]]];
    unfold bind, index, update_decrypted, modify, ret, abort; simpl; try reflexivity;
    f_equal; unfold set_decrypted, decryptedAt; simpl; rewrite ?lookup_insert_eq; simpl;
    rewrite ?insert_insert_eq; reflexivity.
Qed.

Lemma countAt_push_category c v s : countAt (push_category c (set_count c v s)) c = v.
Proof. unfold countAt; simpl. rewrite lookup_insert_eq. reflexivity. Qed.

(** The tally update and the final event, after the writes of a reveal. *)
Lemma tally_update_spec requestId dataId r0 r1 r2 r3 s :
  let sd := set_decrypted dataId (mkDecryptedData r0 r1 r2 r3 true)
              (log_event (DecryptionFulfilled requestId) s) in
  let out :=
    bind (gets (fun s => decryptedAt s dataId)) (fun dData =>
    let riskCategory := computeRiskCategory dData in
    bind (gets (fun s => countAt s riskCategory)) (fun cnt =>
    bind (if negb (FHE_isInitialized cnt)
          then bind (lib_asEuint32 0) (fun zero =>
               bind (modify (set_count riskCategory zero)) (fun _ =>
               modify (push_category riskCategory)))
          else ret tt) (fun _ =>
    bind (gets (fun s => countAt s riskCategory)) (fun cnt' =>
    bind (lib_asEuint32 1) (fun one =>
    bind (lib_add cnt' one) (fun sum =>
    bind (modify (set_count riskCategory sum)) (fun _ =>
    emit (DataDecrypted dataId)))))))) sd in
  match tally_increment (countAt s "High") (oracleSt s) with
  | Some (sum, o') => out = Ok tt (revealed_state s requestId dataId r0 r1 r2 r3 sum o')
  | None => exists sp, out = Abort LibraryRevert sp
  end.
Proof.
  cbv zeta. rewrite bind_gets. cbv beta. unfold computeRiskCategory.
  rewrite bind_gets. cbv beta.
  change (countAt (set_decrypted dataId (mkDecryptedData r0 r1 r2 r3 true)
                     (log_event (DecryptionFulfilled requestId) s)) "High")
    with (countAt s "High").
  unfold tally_increment, lib_asEuint32, lib_add, emit.
  destruct (FHE_isInitialized (countAt s "High")) eqn:Hi; simpl negb; cbv iota.
  - rewrite bind_ret, bind_gets. cbv beta.
    rewrite bind_library. simpl oracleSt.
    destruct (FHE_asEuint32 1 (oracleSt s)) as [[one o2]|]; [|eexists; reflexivity].
    rewrite bind_library. simpl oracleSt.
    change (countAt (set_oracle o2 (set_decrypted dataId (mkDecryptedData r0 r1 r2 r3 true)
                     (log_event (DecryptionFulfilled requestId) s))) "High")
      with (countAt s "High").
    destruct (FHE_add _ one o2) as [[sum o3]|]; [|eexists; reflexivity].
    rewrite bind_modify. state_norm. rewrite Hi, <- app_assoc. reflexivity.
  - rewrite bind_assoc, bind_library. simpl oracleSt.
    destruct (FHE_asEuint32 0 (oracleSt s)) as [[zero o1]|]; [|eexists; reflexivity].
    rewrite bind_assoc, bind_modify, bind_modify, bind_gets. cbv beta.
    rewrite bind_library. simpl oracleSt.
    destruct (FHE_asEuint32 1 o1) as [[one o2]|]; [|eexists; reflexivity].
    rewrite bind_library. simpl oracleSt.
    rewrite countAt_push_category.
    destruct (FHE_add zero one o2) as [[sum o3]|]; [|eexists; reflexivity].
    rewrite bind_modify. state_norm.
    rewrite Hi, insert_insert_eq, <- app_assoc. reflexivity.
Qed.

(** The body of [decryptData], case by case.  The state an abort
    reaches is given up to the library's reverts, where only the failure
    matters. *)
Lemma decryptData_spec requestId cleartexts proof s :
  let dataId := requestAt s requestId in
  let s1 := log_event (DecryptionFulfilled requestId) s in
  let out := decryptData requestId cleartexts proof s in
  if dataId =? 0 then out = Abort (Revert "Invalid request") s
  else if isRevealed (decryptedAt s dataId)
  then out = Abort (Revert "Already decrypted") s
  else if negb (FHE_checkSignatures requestId cleartexts proof (oracleSt s))
  then out = Abort ProofRejected s
  else match abi_decode_string_array cleartexts with
       | None => out = Abort DecodeError s1
       | Some [] => out = Abort (Panic 0x32) s1
       | Some [r0] =>
           out = Abort (Panic 0x32)
                   (set_decrypted dataId (with_temperature r0 (decryptedAt s dataId)) s1)
       | Some [r0; r1] =>
           out = Abort (Panic 0x32)
                   (set_decrypted dataId
                      (with_humidity r1 (with_temperature r0 (decryptedAt s dataId))) s1)
       | Some [r0; r1; r2] =>
           out = Abort (Panic 0x32)
                   (set_decrypted dataId
                      (with_vegetation r2
                         (with_humidity r1 (with_temperature r0 (decryptedAt s dataId))))
                      s1)
       | Some (r0 :: r1 :: r2 :: r3 :: _) =>
           match tally_increment (countAt s "High") (oracleSt s) with
           | Some (sum, o') =>
               out = Ok tt (revealed_state s requestId dataId r0 r1 r2 r3 sum o')
           | None => exists sp, out = Abort LibraryRevert sp
           end
       end.
Proof.
  cbv zeta. unfold decryptData.
  rewrite bind_gets. cbv beta. rewrite bind_require.
  destruct (requestAt s requestId =? 0); simpl negb; cbv iota; [reflexivity|].
  rewrite bind_gets. cbv beta. rewrite bind_require.
  destruct (isRevealed (decryptedAt s (requestAt s requestId))) eqn:Hrev;
    simpl negb; cbv iota; [reflexivity|].
  rewrite bind_checkSignatures.
  destruct (FHE_checkSignatures _ _ _ _); simpl negb; cbv iota; [|reflexivity].
  rewrite bind_decode.
  destruct (abi_decode_string_array cleartexts) as [results|]; [|reflexivity].
  rewrite store_results_spec.
  destruct results as [|r0 [|r1 [|r2 [|r3 rest]]]]; try reflexivity.
  apply tally_update_spec.
Qed.

Lemma requestRiskCategoryDecryption_spec category s :
  requestRiskCategoryDecryption category s =
  if FHE_isInitialized (countAt s category)
  then
    match FHE_requestDecryption [countAt s category] sel_decryptRiskCategory
            (oracleSt s) with
    | Some (r, o) =>
        Ok tt (set_request r (bytes32ToUint (keccak256 (encodePacked category)))
                 (set_oracle o s))
    | None => Abort LibraryRevert s
    end
  else Abort (Revert "Category not found") s.
Proof.
  run_body. destruct (FHE_isInitialized (countAt s category)); simpl; [|reflexivity].
  unfold FHE_toBytes32. destruct (FHE_requestDecryption _ _ _) as [[r o]|]; reflexivity.
Qed.

Lemma decryptRiskCategory_spec requestId cleartexts proof s :
  decryptRiskCategory requestId cleartexts proof s =
  match scanCategories (riskCategories s) (requestAt s requestId) with
  | None => Abort (Revert "Category not found") s
  | Some _ =>
      if FHE_checkSignatures requestId cleartexts proof (oracleSt s)
      then match abi_decode_uint32 cleartexts with
           | Some count => Ok count (log_event (DecryptionFulfilled requestId) s)
           | None => Abort DecodeError (log_event (DecryptionFulfilled requestId) s)
           end
      else Abort ProofRejected s
  end.
Proof.
  run_body.
  destruct (scanCategories (riskCategories s) (requestAt s requestId)); [|reflexivity].
  destruct (FHE_checkSignatures _ _ _ _); [|reflexivity].
  destruct (abi_decode_uint32 cleartexts); reflexivity.
Qed.

(** An aborted body commits nothing. *)
Lemma call_abort {A} (m : M A) s f sp :
  m s = Abort f sp -> call m s = (Reverted f, s).
Proof. unfold call. intros ->. reflexivity. Qed.

Lemma call_ok {A} (m : M A) s a s' :
  m s = Ok a s' -> call m s = (Success a, s').
Proof. unfold call. intros ->. reflexivity. Qed.

(** [exec] never leaves the cases of [step]. *)
Lemma exec_step tx s : step s (reveal_of tx s) (exec tx s).
Proof.
  destruct tx as [eT eH eV eF now|dataId|r c p|category|r c p]; simpl; unfold call.
  - rewrite submit_spec. destruct (dataCount s + 1 <=? uint256_max) eqn:E; simpl.
    + apply step_submit. lia.
    + apply step_rollback.
  - rewrite request_spec. destruct (isRevealed (decryptedAt s dataId)) eqn:E; simpl.
    + apply step_rollback.
    + destruct (FHE_requestDecryption _ _ _) as [[q o]|]; simpl.
      * apply step_request. exact E.
      * apply step_rollback.
  - pose proof (decryptData_spec r c p s) as Hs. cbv zeta in Hs.
    destruct (requestAt s r =? 0) eqn:E0; [rewrite Hs; apply step_rollback|].
    destruct (isRevealed (decryptedAt s (requestAt s r))) eqn:E1;
      [rewrite Hs; apply step_rollback|].
    destruct (FHE_checkSignatures r c p (oracleSt s)); simpl in Hs;
      [|rewrite Hs; apply step_rollback].
    destruct (abi_decode_string_array c) as [[|r0 [|r1 [|r2 [|r3 rest]]]]|];
      try (rewrite Hs; apply step_rollback).
    destruct (tally_increment _ _) as [[sum o']|] eqn:Et.
    + rewrite Hs. simpl. apply step_reveal; [lia|exact E1|exact Et].
    + destruct Hs as [sp ->]. apply step_rollback.
  - rewrite requestRiskCategoryDecryption_spec.
    destruct (FHE_isInitialized (countAt s category)) eqn:E; simpl.
    + destruct (FHE_requestDecryption _ _ _) as [[q o]|]; simpl.
      * apply step_request_category. exact E.
      * apply step_rollback.
    + apply step_rollback.
  - rewrite decryptRiskCategory_spec.
    destruct (scanCategories _ _); [|apply step_rollback].
    destruct (FHE_checkSignatures _ _ _ _); [|apply step_rollback].
    destruct (abi_decode_uint32 c); [apply step_fulfilled|apply step_rollback].
Qed.

Lemma run_cons tx txs s : run (tx :: txs) s = run txs (exec tx s).
Proof. reflexivity. Qed.



(** Induction along a run, carrying the reveal history. *)
Lemma run_invariant (P : State -> list Z -> Prop) :
  (forall s h r s', P s h -> step s r s' -> P s' (h ++ option_list r)) ->
  forall txs s h, P s h -> P (run txs s) (h ++ reveal_history txs s).
Proof.
  intros Hstep txs. induction txs as [|tx txs IH]; intros s h HP.
  - simpl. rewrite app_nil_r. exact HP.
  - rewrite run_cons. simpl.
    pose proof (Hstep s h _ _ HP (exec_step tx s)) as HP'.
    destruct (reveal_of tx s) as [i|]; simpl in HP'.
    + specialize (IH _ _ HP'). rewrite <- app_assoc in IH. exact IH.
    + rewrite app_nil_r in HP'. apply IH. exact HP'.
Qed.

(** State invariants need no history. *)
Lemma run_state_invariant (P : State -> Prop) :
  (forall s r s', P s -> step s r s' -> P s') ->
  forall txs s, P s -> P (run txs s).
Proof.
  intros Hstep txs s HP.
  apply (run_invariant (fun s _ => P s)) with (h := []); [|exact HP].
  intros. eapply Hstep; eassumption.
Qed.

Ltac storage :=
  unfold decryptedAt, encryptedAt, countAt, requestAt, revealed_state, log_event,
    set_decrypted, set_encrypted, set_dataCount, set_count, set_request, set_oracle,
    push_category in *; simpl in *.

Lemma decryptedAt_insert s k d i :
  default zeroDecrypted (<[k := d]> (decryptedDataset s) !! i) =
  if decide (k = i) then d else decryptedAt s i.
Proof.
  unfold decryptedAt. rewrite lookup_insert. destruct (decide (k = i)); reflexivity.
Qed.

(** *** Invariants of the record store *)

Lemma step_dataCount s r s' : step s r s' -> dataCount s <= dataCount s'.
Proof. intros Hs. inversion Hs; subst; storage; lia. Qed.

Lemma step_slots_allocated s r s' :
  slots_allocated s -> step s r s' -> slots_allocated s'.
Proof.
  intros [H0 Hs] Hstep. inversion Hstep; subst; split; storage; try lia; try exact Hs.
  - intros i Hi. destruct (decide (i = dataCount s + 1)) as [->|Hne].
    + eexists _, _. rewrite !lookup_insert_eq. repeat split; simpl.
      apply elem_of_app. right. apply list_elem_of_singleton. reflexivity.
    + destruct (Hs i) as (e & d & He & Hid & Hd & Hev); [lia|].
      exists e, d. rewrite !lookup_insert_ne by lia. repeat split; try assumption.
      apply elem_of_app. left. exact Hev.
  - intros i Hi. destruct (Hs i Hi) as (e & d & He & Hid & Hd & Hev).
    exists e, d. repeat split; try assumption. apply elem_of_app. left. exact Hev.
  - intros i Hi. destruct (Hs i Hi) as (e & d & He & Hid & Hd & Hev).
    destruct (decide (dataId = i)) as [->|Hne].
    + eexists e, _. rewrite lookup_insert_eq. repeat split; try assumption.
      apply elem_of_app. left. exact Hev.
    + exists e, d. rewrite lookup_insert_ne by assumption. repeat split; try assumption.
      apply elem_of_app. left. exact Hev.
  - intros i Hi. destruct (Hs i Hi) as (e & d & He & Hid & Hd & Hev).
    exists e, d. repeat split; try assumption. apply elem_of_app. left. exact Hev.
Qed.

Lemma deployed_slots_allocated o : slots_allocated (deployed o).
Proof. split; simpl; [lia|]. intros i Hi. lia. Qed.

Lemma step_no_stray_records s r s' :
  no_stray_records s -> step s r s' -> no_stray_records s'.
Proof.
  intros [H0 Hs] Hstep. inversion Hstep; subst; split; storage; try lia; try exact Hs.
  intros i Hi. rewrite lookup_insert_ne by lia. apply Hs. lia.
Qed.

Lemma deployed_no_stray_records o : no_stray_records (deployed o).
Proof. split; simpl; [lia|]. intros i _. apply lookup_empty. Qed.

Lemma submitted_ids_app l1 l2 :
  submitted_ids (l1 ++ l2) = submitted_ids l1 ++ submitted_ids l2.
Proof.
  induction l1 as [|e l1 IH]; simpl; [reflexivity|].
  destruct e; simpl; rewrite IH; reflexivity.
Qed.

Lemma step_ids_consecutive s r s' :
  ids_consecutive s -> step s r s' -> ids_consecutive s'.
Proof.
  intros [H0 Hs] Hstep. inversion Hstep; subst; split; storage; try lia; try exact Hs;
    rewrite submitted_ids_app, Hs; simpl; try apply app_nil_r.
  rewrite seqZ_app by lia. f_equal.
  rewrite seqZ_cons by lia. rewrite seqZ_nil by lia. f_equal. lia.
Qed.

Lemma step_categories s r s' :
  Forall (fun c => c = "High") (riskCategories s) -> step s r s' ->
  Forall (fun c => c = "High") (riskCategories s').
Proof.
  intros Hc Hstep. inversion Hstep; subst; storage; try exact Hc.
  destruct (FHE_isInitialized _); [exact Hc|].
  apply Forall_app. split; [exact Hc|]. repeat constructor.
Qed.

(** *** Invariants of the revealed slots *)

Lemma decryptedAt_set_decrypted s k d i :
  decryptedAt (set_decrypted k d s) i = if decide (k = i) then d else decryptedAt s i.
Proof. apply decryptedAt_insert. Qed.

Lemma decryptedAt_revealed_state s q k r0 r1 r2 r3 sum o' i :
  decryptedAt (revealed_state s q k r0 r1 r2 r3 sum o') i =
  if decide (k = i) then mkDecryptedData r0 r1 r2 r3 true else decryptedAt s i.
Proof. apply decryptedAt_insert. Qed.

Lemma decryptedAt_submitted s e k d k' e' n i :
  decryptedAt (log_event e (set_decrypted k d (set_encrypted k' e' (set_dataCount n s)))) i =
  if decide (k = i) then d else decryptedAt s i.
Proof. apply (decryptedAt_insert s). Qed.

Lemma decryptedAt_requested s e r t o i :
  decryptedAt (log_event e (set_request r t (set_oracle o s))) i = decryptedAt s i.
Proof. reflexivity. Qed.

Lemma decryptedAt_requested_category s r t o i :
  decryptedAt (set_request r t (set_oracle o s)) i = decryptedAt s i.
Proof. reflexivity. Qed.

Lemma decryptedAt_log_event s e i : decryptedAt (log_event e s) i = decryptedAt s i.
Proof. reflexivity. Qed.

Lemma step_slots_consistent s h r s' :
  slots_consistent s h -> step s r s' -> slots_consistent s' (h ++ option_list r).
Proof.
  intros Hs Hstep i. specialize (Hs i) as [Hz Hr].
  inversion Hstep; subst; simpl; rewrite ?app_nil_r;
    rewrite ?decryptedAt_submitted, ?decryptedAt_requested,
      ?decryptedAt_requested_category, ?decryptedAt_revealed_state,
      ?decryptedAt_log_event;
    try (split; assumption).
  - destruct (decide (dataCount s + 1 = i)); simpl; [|split; assumption].
    split; [reflexivity|discriminate].
  - destruct (decide (dataId = i)) as [->|Hne]; simpl.
    + split; [discriminate|]. intros _. split; [|assumption].
      apply elem_of_app. right. apply list_elem_of_singleton. reflexivity.
    + split; [assumption|]. intros Hi. destruct (Hr Hi). split; [|assumption].
      apply elem_of_app. left. assumption.
Qed.

Lemma deployed_slots_consistent o : slots_consistent (deployed o) [].
Proof. intros i. unfold decryptedAt; simpl. rewrite lookup_empty; simpl. split; [reflexivity|discriminate]. Qed.

(** *** The ids marked revealed *)

Lemma elem_of_revealed_ids s i :
  i ∈ revealed_ids s <-> isRevealed (decryptedAt s i) = true.
Proof.
  unfold revealed_ids, decryptedAt. rewrite elem_of_dom. unfold is_Some.
  split.
  - intros [d Hd]. apply map_lookup_filter_Some in Hd as [Hd Hp]. rewrite Hd. exact Hp.
  - intros Hr. destruct (decryptedDataset s !! i) as [d|] eqn:E; simpl in Hr.
    + exists d. apply map_lookup_filter_Some. split; assumption.
    + discriminate.
Qed.

Lemma revealed_ids_deployed o : revealed_ids (deployed o) = ∅.
Proof.
  apply set_eq. intros i. rewrite elem_of_revealed_ids. unfold decryptedAt; simpl.
  rewrite lookup_empty; simpl. split; [discriminate|]. intros Hi. set_solver.
Qed.

(** *** The tally *)

Lemma countAt_revealed_state s q k r0 r1 r2 r3 sum o' :
  countAt (revealed_state s q k r0 r1 r2 r3 sum o') "High" = sum.
Proof. unfold countAt at 1, revealed_state; simpl. rewrite lookup_insert_eq. reflexivity. Qed.

Lemma countAt_revealed_state_other s q k r0 r1 r2 r3 sum o' c :
  c <> "High" -> countAt (revealed_state s q k r0 r1 r2 r3 sum o') c = countAt s c.
Proof.
  intros Hc. unfold countAt, revealed_state; simpl.
  rewrite lookup_insert_ne by congruence. reflexivity.
Qed.

Lemma isInitialized_true v : FHE_isInitialized v = true <-> v <> 0.
Proof. unfold FHE_isInitialized. rewrite negb_true_iff, Z.eqb_neq. reflexivity. Qed.

(** What [tally_increment] returns, call by call. *)
Lemma tally_increment_Some cnt o sum o' :
  tally_increment cnt o = Some (sum, o') ->
  exists base o1 one o2,
    (if FHE_isInitialized cnt then Some (cnt, o) else FHE_asEuint32 0 o) = Some (base, o1)
    /\ FHE_asEuint32 1 o1 = Some (one, o2)
    /\ FHE_add base one o2 = Some (sum, o').
Proof.
  unfold tally_increment. intros Ht.
  destruct (if FHE_isInitialized cnt then _ else _) as [[base o1]|] eqn:Hb; [|discriminate].
  destruct (FHE_asEuint32 1 o1) as [[one o2]|] eqn:H1; [|discriminate].
  exists base, o1, one, o2. split; [reflexivity|]. split; [exact H1|exact Ht].
Qed.

Section WithLaws.

Context {L : FHELaws H}.

(** On cleartexts, a tally update adds one, from zero when there was no
    tally. *)
Lemma tally_increment_decrypt cnt o sum o' :
  tally_increment cnt o = Some (sum, o') ->
  sum <> 0 /\
  decrypt sum = ((if FHE_isInitialized cnt then decrypt cnt else 0) + 1) mod uint32_mod.
Proof.
  intros Ht. apply tally_increment_Some in Ht as (base & o1 & one & o2 & Hb & H1 & Ha).
  split; [eapply add_initialized; exact Ha|].
  rewrite (decrypt_add _ _ _ _ _ Ha).
  rewrite (decrypt_asEuint32 1 _ _ _ ltac:(unfold uint32_mod; lia) H1).
  destruct (FHE_isInitialized cnt).
  - injection Hb as -> ->. reflexivity.
  - rewrite (decrypt_asEuint32 0 _ _ _ ltac:(unfold uint32_mod; lia) Hb). reflexivity.
Qed.

Lemma step_tally_counts s h r s' :
  tally_counts s h -> step s r s' -> tally_counts s' (h ++ option_list r).
Proof.
  intros Ht Hstep.
  inversion Hstep; subst; simpl; rewrite ?app_nil_r; try exact Ht.
  match goal with Hinc : tally_increment _ _ = Some _ |- _ =>
    apply tally_increment_decrypt in Hinc as [Hnz Hdec] end.
  unfold tally_counts in *. rewrite length_app, countAt_revealed_state. simpl.
  right. split; [lia|]. split; [exact Hnz|]. rewrite Hdec.
  destruct Ht as [(Hn & Hc & Hcats)|(Hn & Hc & Hd & Hcats)].
  - rewrite Hc. simpl. rewrite Hcats. split; [|reflexivity]. f_equal. lia.
  - apply isInitialized_true in Hc as Hi. rewrite Hi, Hd, Hcats.
    split; [|reflexivity]. rewrite Zplus_mod_idemp_l. f_equal. lia.
Qed.

Lemma deployed_tally_counts o : tally_counts (deployed o) [].
Proof. left. simpl. unfold countAt; simpl. rewrite lookup_empty. auto. Qed.

End WithLaws.


Lemma requestAt_logged_request s e r t o :
  requestAt (log_event e (set_request r t (set_oracle o s))) r = t.
Proof. unfold requestAt; simpl. rewrite lookup_insert_eq. reflexivity. Qed.


(** *** Words and hashes *)






Lemma keccak256_High_nonzero : (keccak256 (encodePacked "High") =? 0) = false.
Proof. vm_compute. reflexivity. Qed.

Lemma scanCategories_zero cats :
  Forall (fun c => c = "High") cats -> scanCategories cats 0 = None.
Proof.
  induction 1 as [|c cats -> _ IH]; [reflexivity|].
  cbn [scanCategories]. unfold bytes32ToUint. rewrite keccak256_High_nonzero. exact IH.
Qed.

Lemma scanCategories_head c cats :
  scanCategories (c :: cats) (bytes32ToUint (keccak256 (encodePacked c))) = Some c.
Proof. cbn [scanCategories]. rewrite Z.eqb_refl. reflexivity. Qed.

(** *** Reachable states *)

Lemma reachable_categories o txs :
  Forall (fun c => c = "High") (riskCategories (run txs (deployed o))).
Proof.
  apply (run_state_invariant (fun s => Forall (fun c => c = "High") (riskCategories s))).
  - intros s r s' Hc Hs. eapply step_categories; eassumption.
  - constructor.
Qed.

Lemma reachable_slots_consistent o txs :
  slots_consistent (run txs (deployed o)) (reveal_history txs (deployed o)).
Proof.
  apply (run_invariant slots_consistent) with (h := []).
  - intros. eapply step_slots_consistent; eassumption.
  - apply deployed_slots_consistent.
Qed.

Lemma reachable_no_stray_records o txs : no_stray_records (run txs (deployed o)).
Proof.
  apply (run_state_invariant no_stray_records).
  - intros s r s' Hn Hs. eapply step_no_stray_records; eassumption.
  - apply deployed_no_stray_records.
Qed.

(** A revealed slot of an existing record is never written again. *)
Lemma step_revealed_stable s r s' i d :
  1 <= i <= dataCount s -> decryptedAt s i = d -> isRevealed d = true -> step s r s' ->
  1 <= i <= dataCount s' /\ decryptedAt s' i = d.
Proof.
  intros Hi Hd Hrev Hstep. pose proof (step_dataCount _ _ _ Hstep) as Hmono.
  split; [lia|].
  inversion Hstep; subst;
    rewrite ?decryptedAt_submitted, ?decryptedAt_requested,
      ?decryptedAt_requested_category, ?decryptedAt_revealed_state,
      ?decryptedAt_log_event; try reflexivity.
  - destruct (decide (dataCount s + 1 = i)); [lia|reflexivity].
  - destruct (decide (dataId = i)) as [->|]; [congruence|reflexivity].
Qed.

Lemma run_revealed_stable txs s i d :
  1 <= i <= dataCount s -> decryptedAt s i = d -> isRevealed d = true ->
  decryptedAt (run txs s) i = d.
Proof.
  intros Hi Hd Hrev.
  apply (run_state_invariant (fun s => 1 <= i <= dataCount s /\ decryptedAt s i = d)).
  - intros s0 r s' [Hi0 Hd0] Hs. eapply step_revealed_stable; eassumption.
  - split; assumption.
Qed.


(** The tally after any run: it stands for the number of committed
    [decryptData] callbacks, modulo [2^32]. *)
Lemma reachable_tally_counts {L : FHELaws H} o txs :
  tally_counts (run txs (deployed o)) (reveal_history txs (deployed o)).
Proof.
  apply (run_invariant tally_counts) with (h := []).
  - intros. eapply step_tally_counts; eassumption.
  - apply deployed_tally_counts.
Qed.

(** ** The claims *)

(** C1. The reveal transition is write-once.  Let record [dataId] exist
    and be sealed, and let the library accept the request for its four
    handles, answering [reqId]: then [requestDataDecryption dataId]
    commits, files [reqId] as pending for [dataId] and leaves the slot
    sealed.  Let the callback for [reqId] arrive (after any transactions
    in between that leave the request pending and the slot sealed) with a
    proof the oracle accepts and cleartexts that decode to at least four
    strings, and let the library carry out the tally update: then the
    callback commits, sets [isRevealed] and stores the first four decoded
    strings.  From then on, whatever transactions follow, the slot keeps
    exactly these values, and every [decryptData] callback whose request
    resolves to [dataId] aborts with "Already decrypted" in the state it
    started from. *)
Theorem reveal_write_once
    s dataId reqId o1 between cleartexts proof r0 r1 r2 r3 rest sum o2 s1 s2 :
  1 <= dataId <= dataCount s ->
  isRevealed (decryptedAt s dataId) = false ->
  FHE_requestDecryption
    [ encryptedTemperature (encryptedAt s dataId);
      encryptedHumidity (encryptedAt s dataId);
      encryptedVegetation (encryptedAt s dataId);
      encryptedHistoricalFires (encryptedAt s dataId) ]
    sel_decryptData (oracleSt s) = Some (reqId, o1) ->
  s1 = run between (exec (TxRequestData dataId) s) ->
  requestAt s1 reqId = dataId ->
  isRevealed (decryptedAt s1 dataId) = false ->
  FHE_checkSignatures reqId cleartexts proof (oracleSt s1) = true ->
  abi_decode_string_array cleartexts = Some (r0 :: r1 :: r2 :: r3 :: rest) ->
  tally_increment (countAt s1 "High") (oracleSt s1) = Some (sum, o2) ->
  s2 = exec (TxDecryptData reqId cleartexts proof) s1 ->
  (requestDataDecryption dataId s = Ok tt (exec (TxRequestData dataId) s) /\
   requestAt (exec (TxRequestData dataId) s) reqId = dataId /\
   getDecryptedData dataId (exec (TxRequestData dataId) s) = getDecryptedData dataId s) /\
  decryptData reqId cleartexts proof s1 = Ok tt s2 /\
  getDecryptedData dataId s2 = (r0, r1, r2, r3, true) /\
  forall txs,
    getDecryptedData dataId (run txs s2) = (r0, r1, r2, r3, true) /\
    forall requestId' cleartexts' proof',
      requestAt (run txs s2) requestId' = dataId ->
      decryptData requestId' cleartexts' proof' (run txs s2)
        = Abort (Revert "Already decrypted") (run txs s2) /\
      call (decryptData requestId' cleartexts' proof') (run txs s2)
        = (Reverted (Revert "Already decrypted"), run txs s2).
Proof.
  intros Hid Hsealed Hlib Hs1 Htarget Hsealed1 Hsig Hdec Htally Hs2.
  assert (requestDataDecryption dataId s
          = Ok tt (log_event (DecryptionRequested dataId)
                     (set_request reqId dataId (set_oracle o1 s)))) as Hreq.
  { rewrite request_spec, Hsealed. cbv zeta. rewrite Hlib. reflexivity. }
  assert (exec (TxRequestData dataId) s
          = log_event (DecryptionRequested dataId)
              (set_request reqId dataId (set_oracle o1 s))) as Hexec.
  { simpl. unfold call. rewrite Hreq. reflexivity. }
  assert (1 <= dataId <= dataCount s1) as Hid1.
  { rewrite Hs1.
    apply (run_state_invariant (fun st => 1 <= dataId <= dataCount st)).
    - intros st r st' Hst Hstep. pose proof (step_dataCount _ _ _ Hstep). lia.
    - rewrite Hexec. simpl. exact Hid. }
  assert (decryptData reqId cleartexts proof s1
          = Ok tt (revealed_state s1 reqId dataId r0 r1 r2 r3 sum o2)) as Hcb.
  { pose proof (decryptData_spec reqId cleartexts proof s1) as Hsp. cbv zeta in Hsp.
    rewrite Htarget, Hsealed1, Hsig, Hdec, Htally in Hsp.
    destruct (dataId =? 0) eqn:E; [lia|]. exact Hsp. }
  assert (s2 = revealed_state s1 reqId dataId r0 r1 r2 r3 sum o2) as Hs2'.
  { rewrite Hs2. simpl. unfold call. rewrite Hcb. reflexivity. }
  assert (decryptedAt s2 dataId = mkDecryptedData r0 r1 r2 r3 true) as Hslot.
  { rewrite Hs2', decryptedAt_revealed_state.
    destruct (decide (dataId = dataId)); [reflexivity|congruence]. }
  split.
  { split; [rewrite Hexec; exact Hreq|]. rewrite Hexec. split.
    - apply requestAt_logged_request.
    - reflexivity. }
  split; [rewrite Hcb, Hs2'; reflexivity|].
  split; [unfold getDecryptedData; rewrite Hslot; reflexivity|].
  intros txs.
  assert (decryptedAt (run txs s2) dataId = mkDecryptedData r0 r1 r2 r3 true) as Hlater.
  { apply run_revealed_stable; [|exact Hslot|reflexivity].
    rewrite Hs2'. simpl. exact Hid1. }
  split; [unfold getDecryptedData; rewrite Hlater; reflexivity|].
  intros requestId' cleartexts' proof' Hres.
  assert (decryptData requestId' cleartexts' proof' (run txs s2)
          = Abort (Revert "Already decrypted") (run txs s2)) as Hab.
  { pose proof (decryptData_spec requestId' cleartexts' proof' (run txs s2)) as Hsp.
    cbv zeta in Hsp. rewrite Hres, Hlater in Hsp.
    destruct (dataId =? 0) eqn:E; [lia|]. exact Hsp. }
  split; [exact Hab|]. eapply call_abort. exact Hab.
Qed.

(** C2. In [decryptData] the signature check comes before every write: when
    the oracle's check rejects the proof for these cleartexts and this
    request id, the body aborts in the very state it started from (nothing
    was written before the abort), and the transaction commits nothing;
    when the two earlier guards pass, the abort is the proof rejection. *)
Theorem proof_checked_before_any_mutation s requestId cleartexts proof :
  FHE_checkSignatures requestId cleartexts proof (oracleSt s) = false ->
  (exists f, decryptData requestId cleartexts proof s = Abort f s) /\
  exec (TxDecryptData requestId cleartexts proof) s = s /\
  (requestAt s requestId <> 0 ->
   isRevealed (decryptedAt s (requestAt s requestId)) = false ->
   decryptData requestId cleartexts proof s = Abort ProofRejected s).
Proof.
  intros Hsig.
  pose proof (decryptData_spec requestId cleartexts proof s) as Hsp. cbv zeta in Hsp.
  rewrite Hsig in Hsp. simpl in Hsp.
  assert (exists f, decryptData requestId cleartexts proof s = Abort f s) as [f Hf].
  { destruct (requestAt s requestId =? 0); [eauto|].
    destruct (isRevealed _); eauto. }
  split; [eauto|]. split.
  - simpl. unfold call. rewrite Hf. reflexivity.
  - intros Hne Hsealed. rewrite Hsealed in Hsp.
    destruct (requestAt s requestId =? 0) eqn:E; [lia|exact Hsp].
Qed.

(** C3. [requestDataDecryption] reverts whenever one of its two
    preconditions is violated, in every state the contract can reach.  The
    contract itself checks that the slot is not revealed, and reverts with
    "Already decrypted" otherwise.  That the record exists is enforced by
    the library: the handles of a record that was never submitted are
    uninitialised, and a library that refuses such handles makes the
    request revert.  Either way nothing is committed; in particular no
    pending request is recorded. *)
Theorem requestDataDecryption_preconditions
    (R : RefusesUninitialised H) o txs s dataId :
  s = run txs (deployed o) ->
  ~ (1 <= dataId <= dataCount s) \/ isRevealed (decryptedAt s dataId) = true ->
  (isRevealed (decryptedAt s dataId) = true ->
   requestDataDecryption dataId s = Abort (Revert "Already decrypted") s) /\
  (isRevealed (decryptedAt s dataId) = false ->
   requestDataDecryption dataId s = Abort LibraryRevert s) /\
  (exists f, call (requestDataDecryption dataId) s = (Reverted f, s)) /\
  exec (TxRequestData dataId) s = s /\
  requestToDataId (exec (TxRequestData dataId) s) = requestToDataId s.
Proof.
  intros Hs Hpre.
  assert (isRevealed (decryptedAt s dataId) = true ->
          requestDataDecryption dataId s = Abort (Revert "Already decrypted") s) as Hrev.
  { intros E. rewrite request_spec, E. reflexivity. }
  assert (isRevealed (decryptedAt s dataId) = false ->
          requestDataDecryption dataId s = Abort LibraryRevert s) as Hmiss.
  { intros E. destruct Hpre as [Hout|Hr]; [|congruence].
    pose proof (reachable_no_stray_records o txs) as [_ Hstray]. rewrite <- Hs in Hstray.
    rewrite request_spec, E. cbv zeta. unfold encryptedAt.
    rewrite (Hstray dataId Hout). simpl.
    rewrite request_refuses_uninitialised; [reflexivity|].
    apply elem_of_cons. left. reflexivity. }
  assert (exists f, requestDataDecryption dataId s = Abort f s) as [f Hf].
  { destruct (isRevealed (decryptedAt s dataId)) eqn:E; eauto. }
  assert (exec (TxRequestData dataId) s = s) as Hexec.
  { simpl. unfold call. rewrite Hf. reflexivity. }
  split; [exact Hrev|]. split; [exact Hmiss|].
  split; [exists f; eapply call_abort; exact Hf|].
  split; [exact Hexec|]. rewrite Hexec. reflexivity.
Qed.

(** C4. A callback whose request id resolves to the reserved zero in the
    pending-request index fails with the not-found error of its path and
    writes nothing: [decryptData] aborts with "Invalid request", and
    [decryptRiskCategory], in any state the contract can reach, with
    "Category not found"; both abort in the state they started from. *)
Theorem unknown_request_rejected o txs s requestId cleartexts proof :
  s = run txs (deployed o) ->
  requestAt s requestId = 0 ->
  decryptData requestId cleartexts proof s = Abort (Revert "Invalid request") s /\
  decryptRiskCategory requestId cleartexts proof s
    = Abort (Revert "Category not found") s /\
  exec (TxDecryptData requestId cleartexts proof) s = s /\
  exec (TxDecryptCategory requestId cleartexts proof) s = s.
Proof.
  intros Hs Hz.
  assert (decryptData requestId cleartexts proof s = Abort (Revert "Invalid request") s) as H1.
  { pose proof (decryptData_spec requestId cleartexts proof s) as Hsp. cbv zeta in Hsp.
    rewrite Hz in Hsp. exact Hsp. }
  assert (decryptRiskCategory requestId cleartexts proof s
          = Abort (Revert "Category not found") s) as H2.
  { rewrite decryptRiskCategory_spec, Hz, scanCategories_zero; [reflexivity|].
    subst s. apply reachable_categories. }
  repeat split; try assumption; simpl; unfold call; rewrite ?H1, ?H2; reflexivity.
Qed.

(** Whatever the callback decodes fits in 32 bits. *)
Lemma decryptRiskCategory_count_bound s requestId cleartexts proof count s' :
  decryptRiskCategory requestId cleartexts proof s = Ok count s' ->
  s' = log_event (DecryptionFulfilled requestId) s /\ 0 <= count < uint32_mod.
Proof.
  rewrite decryptRiskCategory_spec.
  destruct (scanCategories _ _); [|discriminate].
  destruct (FHE_checkSignatures _ _ _ _); [|discriminate].
  unfold abi_decode_uint32.
  destruct (length cleartexts <? 32)%nat; [discriminate|].
  destruct (be_to_Z (take 32 cleartexts) <? uint32_mod) eqn:E; [|discriminate].
  intros [= <- <-]. split; [reflexivity|].
  split; [|lia]. unfold be_to_Z.
  assert (forall l a, 0 <= a -> 0 <= fold_left (fun acc b => acc * 256 + Z_of_byte b) l a)
    as Hnn.
  { induction l as [|b l IH]; intros a Ha; simpl; [exact Ha|].
    apply IH. unfold Z_of_byte. lia. }
  apply Hnn. lia.
Qed.


(** C6. Ids are handed out consecutively from 1.  In every state the
    contract can reach, the ids of the [DataSubmitted] events, in the order
    they were emitted, are [1, 2, ..., dataCount]: the k-th committed submit
    carried id k.  The next submit either commits with id [dataCount + 1],
    or aborts on the overflow of the counter. *)
Theorem submit_ids_consecutive o txs eT eH eV eF now :
  submitted_ids (events (run txs (deployed o)))
    = seqZ 1 (dataCount (run txs (deployed o))) /\
  Z.of_nat (length (submitted_ids (events (run txs (deployed o)))))
    = dataCount (run txs (deployed o)) /\
  ((dataCount (run txs (deployed o)) = uint256_max /\
    submitEncryptedData eT eH eV eF now (run txs (deployed o))
      = Abort (Panic 0x11) (run txs (deployed o)))
   \/
   (exists s', submitEncryptedData eT eH eV eF now (run txs (deployed o)) = Ok tt s' /\
      dataCount s' = dataCount (run txs (deployed o)) + 1 /\
      events s' = events (run txs (deployed o))
                    ++ [DataSubmitted (dataCount (run txs (deployed o)) + 1) now])).
Proof.
  assert (ids_consecutive (run txs (deployed o))) as [H0 Hids].
  { apply (run_state_invariant ids_consecutive).
    - intros s r s' Hi Hs. eapply step_ids_consecutive; eassumption.
    - split; simpl; [lia|reflexivity]. }
  assert (dataCount (run txs (deployed o)) <= uint256_max) as Hmax.
  { apply (run_state_invariant (fun s => dataCount s <= uint256_max)).
    - intros s r s' Hle Hs. inversion Hs; subst; simpl; lia.
    - simpl. unfold uint256_max. lia. }
  split; [exact Hids|]. split.
  - rewrite Hids, length_seqZ. lia.
  - rewrite submit_spec.
    destruct (dataCount (run txs (deployed o)) + 1 <=? uint256_max) eqn:E.
    + right. eexists. split; [reflexivity|]. split; reflexivity.
    + left. split; [lia|reflexivity].
Qed.

(** C7. [dataCount] never decreases, whatever the transaction and the
    state.  A submit that commits raises it by one and writes, under the
    new id, both the [EncryptedData] entry and the empty [DecryptedData]
    slot.  And in every state the contract can reach, each id in
    [1, dataCount] has its entry (carrying that id) and its slot, and the
    log has the [DataSubmitted] event of the submit that allocated it. *)
Theorem record_store_invariant :
  (forall tx s, dataCount s <= dataCount (exec tx s)) /\
  (forall s eT eH eV eF now s',
     submitEncryptedData eT eH eV eF now s = Ok tt s' ->
     dataCount s' = dataCount s + 1 /\
     encryptedDataset s' !! dataCount s'
       = Some (mkEncryptedData (dataCount s') eT eH eV eF now) /\
     decryptedDataset s' !! dataCount s' = Some zeroDecrypted) /\
  (forall o txs i,
     1 <= i <= dataCount (run txs (deployed o)) ->
     exists e d,
       encryptedDataset (run txs (deployed o)) !! i = Some e /\ id e = i /\
       decryptedDataset (run txs (deployed o)) !! i = Some d /\
       DataSubmitted i (timestamp e) ∈ events (run txs (deployed o))).
Proof.
  split; [|split].
  - intros tx s. eapply step_dataCount. apply exec_step.
  - intros s eT eH eV eF now s'. rewrite submit_spec.
    destruct (dataCount s + 1 <=? uint256_max); [|discriminate].
    intros [= <-]. simpl. rewrite !lookup_insert_eq. repeat split; reflexivity.
  - intros o txs.
    assert (slots_allocated (run txs (deployed o))) as [_ Hs]; [|exact Hs].
    apply (run_state_invariant slots_allocated).
    + intros s r s' Ha Hstep. eapply step_slots_allocated; eassumption.
    + apply deployed_slots_allocated.
Qed.

(** C8. [getDecryptedData] only reads the state.  For an id that no
    committed [decryptData] callback of the run has revealed, whether it is
    0, the id of a sealed record, or above [dataCount], it returns four
    empty strings and [false]; id 0 is never revealed. *)
Theorem getDecryptedData_unrevealed o txs :
  getDecryptedData 0 (run txs (deployed o)) = ("", "", "", "", false) /\
  forall dataId,
    dataId ∉ reveal_history txs (deployed o) ->
    getDecryptedData dataId (run txs (deployed o)) = ("", "", "", "", false).
Proof.
  pose proof (reachable_slots_consistent o txs) as Hc.
  assert (forall i, isRevealed (decryptedAt (run txs (deployed o)) i) = false ->
            getDecryptedData i (run txs (deployed o)) = ("", "", "", "", false)) as Hz.
  { intros i Hi. destruct (Hc i) as [Hzero _]. unfold getDecryptedData.
    rewrite (Hzero Hi). reflexivity. }
  split.
  - apply Hz. destruct (isRevealed _) eqn:E; [|reflexivity].
    destruct (Hc 0) as [_ Hr]. destruct (Hr E) as [_ Hne]. congruence.
  - intros dataId Hnot. apply Hz. destruct (isRevealed _) eqn:E; [|reflexivity].
    destruct (Hc dataId) as [_ Hr]. destruct (Hr E) as [Hin _]. contradiction.
Qed.

(** What a committed [decryptData] leaves. *)
Lemma decryptData_committed requestId cleartexts proof s :
  fst (call (decryptData requestId cleartexts proof) s) = Success tt ->
  exists r0 r1 r2 r3 rest sum o',
    requestAt s requestId <> 0 /\
    isRevealed (decryptedAt s (requestAt s requestId)) = false /\
    FHE_checkSignatures requestId cleartexts proof (oracleSt s) = true /\
    abi_decode_string_array cleartexts = Some (r0 :: r1 :: r2 :: r3 :: rest) /\
    tally_increment (countAt s "High") (oracleSt s) = Some (sum, o') /\
    decryptData requestId cleartexts proof s
      = Ok tt (revealed_state s requestId (requestAt s requestId) r0 r1 r2 r3 sum o') /\
    exec (TxDecryptData requestId cleartexts proof) s
      = revealed_state s requestId (requestAt s requestId) r0 r1 r2 r3 sum o'.
Proof.
  pose proof (decryptData_spec requestId cleartexts proof s) as Hsp. cbv zeta in Hsp.
  simpl. unfold call.
  destruct (requestAt s requestId =? 0) eqn:E0; [rewrite Hsp; discriminate|].
  destruct (isRevealed _) eqn:E1; [rewrite Hsp; discriminate|].
  destruct (FHE_checkSignatures _ _ _ _) eqn:E2; simpl in Hsp; [|rewrite Hsp; discriminate].
  destruct (abi_decode_string_array cleartexts) as [[|r0 [|r1 [|r2 [|r3 rest]]]]|] eqn:E3;
    try (rewrite Hsp; discriminate).
  destruct (tally_increment _ _) as [[sum o']|] eqn:E4.
  - intros _. exists r0, r1, r2, r3, rest, sum, o'. rewrite Hsp.
    repeat split; try reflexivity. lia.
  - destruct Hsp as [sp ->]. discriminate.
Qed.

(** C9. [computeRiskCategory] ignores its argument and returns "High";
    hence every committed [decryptData] replaces the "High" tally by what
    [FHE.add] returned for the tally (for what [FHE.asEuint32(0)] returned,
    when the tally was not initialised) and what [FHE.asEuint32(1)]
    returned, and touches no other label. *)
Theorem computeRiskCategory_constant :
  (forall dData, computeRiskCategory dData = "High") /\
  (forall s requestId cleartexts proof,
     fst (call (decryptData requestId cleartexts proof) s) = Success tt ->
     (exists base o1 one o2,
        (if FHE_isInitialized (getEncryptedRiskCategoryCount "High" s)
         then Some (getEncryptedRiskCategoryCount "High" s, oracleSt s)
         else FHE_asEuint32 0 (oracleSt s)) = Some (base, o1) /\
        FHE_asEuint32 1 o1 = Some (one, o2) /\
        FHE_add base one o2
          = Some (getEncryptedRiskCategoryCount "High"
                    (exec (TxDecryptData requestId cleartexts proof) s),
                  oracleSt (exec (TxDecryptData requestId cleartexts proof) s))) /\
     forall category, category <> "High" ->
       getEncryptedRiskCategoryCount category
         (exec (TxDecryptData requestId cleartexts proof) s)
       = getEncryptedRiskCategoryCount category s).
Proof.
  split; [reflexivity|].
  intros s requestId cleartexts proof Hok.
  destruct (decryptData_committed _ _ _ _ Hok)
    as (r0 & r1 & r2 & r3 & rest & sum & o' & _ & _ & _ & _ & Ht & _ & Hexec).
  rewrite Hexec. unfold getEncryptedRiskCategoryCount. split.
  - apply tally_increment_Some in Ht as (base & o1 & one & o2 & Hb & H1 & Ha).
    exists base, o1, one, o2. rewrite countAt_revealed_state.
    split; [exact Hb|]. split; [exact H1|exact Ha].
  - intros category Hc. apply countAt_revealed_state_other. exact Hc.
Qed.

(** C10. The accesses [results[0]] .. [results[3]] are all in bounds
    exactly when the decoded array has at least four elements.  When it has
    fewer, [decryptData] aborts; the state it had reached then has the same
    [isRevealed] flags, tallies and labels as the start, and the transaction
    commits nothing; when the guards before the decoding pass, the abort is
    the out-of-bounds panic.  With four or more elements there is no such
    panic. *)
Theorem short_cleartexts_abort s requestId cleartexts proof results :
  abi_decode_string_array cleartexts = Some results ->
  ((forall i, (i < 4)%nat -> exists x, index results i s = Ok x s)
     <-> (4 <= length results)%nat) /\
  ((length results < 4)%nat ->
     (exists f sp,
        decryptData requestId cleartexts proof s = Abort f sp /\
        (forall i, isRevealed (decryptedAt sp i) = isRevealed (decryptedAt s i)) /\
        encryptedRiskCategoryCount sp = encryptedRiskCategoryCount s /\
        riskCategories sp = riskCategories s) /\
     exec (TxDecryptData requestId cleartexts proof) s = s /\
     (requestAt s requestId <> 0 ->
      isRevealed (decryptedAt s (requestAt s requestId)) = false ->
      FHE_checkSignatures requestId cleartexts proof (oracleSt s) = true ->
      exists sp, decryptData requestId cleartexts proof s = Abort (Panic 0x32) sp)) /\
  ((4 <= length results)%nat ->
     forall sp, decryptData requestId cleartexts proof s <> Abort (Panic 0x32) sp).
Proof.
  intros Hdec.
  pose proof (decryptData_spec requestId cleartexts proof s) as Hsp. cbv zeta in Hsp.
  rewrite Hdec in Hsp.
  split; [|split].
  - split.
    + intros Hin. destruct (Hin 3%nat ltac:(lia)) as [x Hx].
      unfold index in Hx. destruct (results !! 3%nat) eqn:E; [|discriminate].
      apply lookup_lt_Some in E. lia.
    + intros Hlen i Hi. unfold index.
      destruct (lookup_lt_is_Some_2 results i ltac:(lia)) as [x ->].
      exists x. reflexivity.
  - intros Hlen.
    assert (exists f sp,
        decryptData requestId cleartexts proof s = Abort f sp /\
        (forall i, isRevealed (decryptedAt sp i) = isRevealed (decryptedAt s i)) /\
        encryptedRiskCategoryCount sp = encryptedRiskCategoryCount s /\
        riskCategories sp = riskCategories s /\
        (requestAt s requestId <> 0 ->
         isRevealed (decryptedAt s (requestAt s requestId)) = false ->
         FHE_checkSignatures requestId cleartexts proof (oracleSt s) = true ->
         f = Panic 0x32)) as (f & sp & Hab & Hflag & Hcnt & Hcats & Hpanic).
    { destruct (requestAt s requestId =? 0) eqn:E0.
      { eexists _, _. split; [exact Hsp|]. repeat split; try reflexivity. lia. }
      destruct (isRevealed (decryptedAt s (requestAt s requestId))) eqn:E1.
      { eexists _, _. split; [exact Hsp|]. repeat split; try reflexivity. congruence. }
      destruct (FHE_checkSignatures _ _ _ _) eqn:E2; simpl in Hsp.
      2:{ eexists _, _. split; [exact Hsp|]. repeat split; try reflexivity. congruence. }
      destruct results as [|r0 [|r1 [|r2 [|r3 rest]]]]; simpl in Hlen; try lia;
        eexists _, _; (split; [exact Hsp|]); (split; [|repeat split; reflexivity]);
        intros i; try reflexivity;
        rewrite decryptedAt_set_decrypted, decryptedAt_log_event;
        (destruct (decide (requestAt s requestId = i)) as [<-|]; [|reflexivity]);
        reflexivity. }
    split; [exists f, sp; repeat split; assumption|].
    split.
    + simpl. unfold call. rewrite Hab. reflexivity.
    + intros Hne Hsealed Hsig. exists sp. rewrite Hab, (Hpanic Hne Hsealed Hsig). reflexivity.
  - intros Hlen sp.
    destruct (requestAt s requestId =? 0); [rewrite Hsp; discriminate|].
    destruct (isRevealed _); [rewrite Hsp; discriminate|].
    destruct (negb _); [rewrite Hsp; discriminate|].
    destruct results as [|r0 [|r1 [|r2 [|r3 rest]]]]; simpl in Hlen; try lia.
    destruct (tally_increment _ _) as [[sum o']|].
    + rewrite Hsp. discriminate.
    + destruct Hsp as [sp' ->]. discriminate.
Qed.

(** ** Further properties of the contract *)

(** *** Reads after writes of the pending-request index *)

Lemma requestAt_insert s r t r' :
  default 0 (<[r := t]> (requestToDataId s) !! r') =
  if decide (r = r') then t else requestAt s r'.
Proof.
  unfold requestAt. rewrite lookup_insert. destruct (decide (r = r')); reflexivity.
Qed.

Lemma requestAt_set_request_oracle s r t o r' :
  requestAt (set_request r t (set_oracle o s)) r' =
  if decide (r = r') then t else requestAt s r'.
Proof. apply (requestAt_insert s). Qed.

Lemma requestAt_logged_request_any s e r t o r' :
  requestAt (log_event e (set_request r t (set_oracle o s))) r' =
  if decide (r = r') then t else requestAt s r'.
Proof. apply (requestAt_insert s). Qed.

Lemma decrypted_ids_app l1 l2 :
  decrypted_ids (l1 ++ l2) = decrypted_ids l1 ++ decrypted_ids l2.
Proof.
  induction l1 as [|e l1 IH]; simpl; [reflexivity|].
  destruct e; simpl; rewrite IH; reflexivity.
Qed.

Lemma be_to_Z_nonneg bs : 0 <= be_to_Z bs.
Proof.
  unfold be_to_Z.
  assert (forall acc, 0 <= acc ->
            0 <= fold_left (fun a b => a * 256 + Z_of_byte b) bs acc) as Hf.
  { induction bs as [|b bs IH]; intros acc Hacc; simpl; [exact Hacc|].
    apply IH. unfold Z_of_byte. lia. }
  apply Hf. lia.
Qed.

(** X1. [requestRiskCategoryDecryption] has three outcomes.  When the
    label has no initialised tally it fails with "Category not found",
    writing nothing.  Otherwise it hands the tally to the library: when
    the library reverts, so does the request, writing nothing; when the
    library answers with a request id, the request commits, files the hash
    of the label under that id, leaves every other pending request as it
    was, and emits no event. *)
Theorem category_request_outcomes s category :
  (FHE_isInitialized (getEncryptedRiskCategoryCount category s) = false ->
     requestRiskCategoryDecryption category s = Abort (Revert "Category not found") s) /\
  (FHE_isInitialized (getEncryptedRiskCategoryCount category s) = true ->
     (FHE_requestDecryption [getEncryptedRiskCategoryCount category s]
        sel_decryptRiskCategory (oracleSt s) = None ->
      requestRiskCategoryDecryption category s = Abort LibraryRevert s) /\
     (forall r o,
        FHE_requestDecryption [getEncryptedRiskCategoryCount category s]
          sel_decryptRiskCategory (oracleSt s) = Some (r, o) ->
        exists s', requestRiskCategoryDecryption category s = Ok tt s' /\
          requestAt s' r = categoryHash category /\
          (forall r', r' <> r -> requestAt s' r' = requestAt s r') /\
          oracleSt s' = o /\
          events s' = events s /\
          same_records s s')).
Proof.
  unfold getEncryptedRiskCategoryCount. split; intros Hi.
  - rewrite requestRiskCategoryDecryption_spec, Hi. reflexivity.
  - split.
    + intros Hnone. rewrite requestRiskCategoryDecryption_spec, Hi, Hnone. reflexivity.
    + intros r o Hsome. eexists.
      rewrite requestRiskCategoryDecryption_spec, Hi, Hsome.
      split; [reflexivity|]. split; [|split; [|repeat split; reflexivity]].
      * rewrite requestAt_set_request_oracle.
        destruct (decide _); [reflexivity|congruence].
      * intros r' Hr. rewrite requestAt_set_request_oracle.
        destruct (decide _); [congruence|reflexivity].
Qed.

(** X2. Both request functions leave the record store and the tallies
    alone, whether they commit or abort: [dataCount], the encrypted
    records, the revealed slots, the tallies and the labels are the same
    after as before. *)
Theorem requests_leave_records_alone s dataId category :
  same_records s (exec (TxRequestData dataId) s) /\
  same_records s (exec (TxRequestCategory category) s).
Proof.
  unfold same_records. split; simpl; unfold call.
  - rewrite request_spec. destruct (isRevealed _); simpl; [repeat split; reflexivity|].
    destruct (FHE_requestDecryption _ _ _) as [[r o]|]; simpl; repeat split; reflexivity.
  - rewrite requestRiskCategoryDecryption_spec.
    destruct (FHE_isInitialized _); simpl; [|repeat split; reflexivity].
    destruct (FHE_requestDecryption _ _ _) as [[r o]|]; simpl; repeat split; reflexivity.
Qed.

(** *** The loop of [getCategoryFromHash] *)

Lemma scanCategories_Some cats hash c :
  scanCategories cats hash = Some c ->
  exists i, cats !! i = Some c /\ categoryHash c = hash /\
    forall j c', (j < i)%nat -> cats !! j = Some c' -> categoryHash c' <> hash.
Proof.
  induction cats as [|c0 cats IH]; [discriminate|].
  cbn [scanCategories]. fold (categoryHash c0).
  destruct (categoryHash c0 =? hash) eqn:E.
  - intros [= <-]. exists 0%nat. split; [reflexivity|]. split; [lia|]. intros j c' Hj. lia.
  - intros Hs. destruct (IH Hs) as (i & Hi & Hh & Hfirst).
    exists (S i). split; [exact Hi|]. split; [exact Hh|].
    intros [|j] c' Hj Hc'.
    + injection Hc' as <-. lia.
    + apply (Hfirst j c'); [lia|exact Hc'].
Qed.

Lemma scanCategories_None cats hash :
  scanCategories cats hash = None ->
  forall c, c ∈ cats -> categoryHash c <> hash.
Proof.
  induction cats as [|c0 cats IH]; intros Hs c Hc.
  - apply elem_of_nil in Hc. contradiction.
  - cbn [scanCategories] in Hs. fold (categoryHash c0) in Hs.
    destruct (categoryHash c0 =? hash) eqn:E; [discriminate|].
    apply elem_of_cons in Hc as [->|Hc]; [lia|]. apply IH; assumption.
Qed.

(** X3. [getCategoryFromHash] is a faithful lookup: it never writes; when
    it returns a label, that label is in [riskCategories], hashes to the
    argument, and is the first such label of the list; it reverts, with
    "Category not found", only when no label of the list hashes to the
    argument. *)
Theorem getCategoryFromHash_first_match hash s :
  (forall c s', getCategoryFromHash hash s = Ok c s' ->
     s' = s /\
     exists i, riskCategories s !! i = Some c /\ categoryHash c = hash /\
       forall j c', (j < i)%nat -> riskCategories s !! j = Some c' ->
         categoryHash c' <> hash) /\
  (forall f s', getCategoryFromHash hash s = Abort f s' ->
     s' = s /\ f = Revert "Category not found" /\
     forall c, c ∈ riskCategories s -> categoryHash c <> hash).
Proof.
  unfold getCategoryFromHash, bind, gets, ret, abort.
  destruct (scanCategories (riskCategories s) hash) as [c0|] eqn:E; split.
  - intros c s' [= <- <-]. split; [reflexivity|]. apply scanCategories_Some. exact E.
  - intros f s'. discriminate.
  - intros c s'. discriminate.
  - intros f s' [= <- <-]. split; [reflexivity|]. split; [reflexivity|].
    apply scanCategories_None. exact E.
Qed.

(** X4. [decryptRiskCategory] writes nothing to the contract's storage,
    whether it commits or aborts.  When it commits, the oracle accepted
    the proof, the only trace is the [DecryptionFulfilled] event of the
    signature check, the request resolved to the hash of a known label,
    and the count it decoded is the first word of the cleartexts, below
    [2^32].  An unknown label is reported before the proof is looked
    at. *)
Theorem decryptRiskCategory_keeps_storage s requestId cleartexts proof :
  same_storage s (exec (TxDecryptCategory requestId cleartexts proof) s) /\
  (forall count s',
     decryptRiskCategory requestId cleartexts proof s = Ok count s' ->
     s' = log_event (DecryptionFulfilled requestId) s /\
     0 <= count < uint32_mod /\
     count = be_to_Z (take 32 cleartexts) /\
     FHE_checkSignatures requestId cleartexts proof (oracleSt s) = true /\
     exists c, c ∈ riskCategories s /\ categoryHash c = requestAt s requestId) /\
  ((forall c, c ∈ riskCategories s -> categoryHash c <> requestAt s requestId) ->
     decryptRiskCategory requestId cleartexts proof s
       = Abort (Revert "Category not found") s).
Proof.
  split; [|split].
  - unfold same_storage. simpl. unfold call. rewrite decryptRiskCategory_spec.
    destruct (scanCategories _ _); [|repeat split; reflexivity].
    destruct (FHE_checkSignatures _ _ _ _); [|repeat split; reflexivity].
    destruct (abi_decode_uint32 cleartexts); repeat split; reflexivity.
  - intros count s'. rewrite decryptRiskCategory_spec.
    destruct (scanCategories _ _) as [c|] eqn:Es; [|discriminate].
    destruct (FHE_checkSignatures _ _ _ _); [|discriminate].
    unfold abi_decode_uint32.
    destruct (length cleartexts <? 32)%nat; [discriminate|].
    destruct (be_to_Z (take 32 cleartexts) <? uint32_mod) eqn:E; [|discriminate].
    intros [= <- <-]. pose proof (be_to_Z_nonneg (take 32 cleartexts)).
    repeat split; try lia.
    apply scanCategories_Some in Es as (i & Hi & Hh & _).
    exists c. split; [|exact Hh]. apply list_elem_of_lookup. exists i. exact Hi.
  - intros Hnone. rewrite decryptRiskCategory_spec.
    destruct (scanCategories _ _) as [c|] eqn:Es; [|reflexivity].
    apply scanCategories_Some in Es as (i & Hi & Hh & _).
    exfalso. apply (Hnone c); [|exact Hh]. apply list_elem_of_lookup. exists i. exact Hi.
Qed.

(** *** Frames of the two writers of the record store *)

(** X5. A committed [submitEncryptedData] appends one event and leaves
    every other record and slot, the tallies, the labels, the pending
    requests and the oracle as they were. *)
Theorem submit_touches_only_new_id s eT eH eV eF now :
  fst (call (submitEncryptedData eT eH eV eF now) s) = Success tt ->
  (forall i, i <> dataCount s + 1 ->
     encryptedAt (exec (TxSubmit eT eH eV eF now) s) i = encryptedAt s i /\
     decryptedAt (exec (TxSubmit eT eH eV eF now) s) i = decryptedAt s i) /\
  encryptedRiskCategoryCount (exec (TxSubmit eT eH eV eF now) s)
    = encryptedRiskCategoryCount s /\
  riskCategories (exec (TxSubmit eT eH eV eF now) s) = riskCategories s /\
  requestToDataId (exec (TxSubmit eT eH eV eF now) s) = requestToDataId s /\
  oracleSt (exec (TxSubmit eT eH eV eF now) s) = oracleSt s /\
  events (exec (TxSubmit eT eH eV eF now) s)
    = events s ++ [DataSubmitted (dataCount s + 1) now].
Proof.
  simpl. unfold call. rewrite submit_spec.
  destruct (dataCount s + 1 <=? uint256_max); [|discriminate].
  intros _. simpl. split; [|repeat split; reflexivity].
  intros i Hi. unfold encryptedAt, decryptedAt; simpl.
  rewrite !lookup_insert_ne by congruence. split; reflexivity.
Qed.

(** X6. A committed [decryptData] writes one slot and one tally of the
    contract's storage and nothing else: [dataCount], the encrypted
    records, every other slot and the pending-request index are unchanged
    (the request it served stays in the index), and the log gains
    [DecryptionFulfilled] of the request, from the signature check, and
    then [DataDecrypted] of the target. *)
Theorem decryptData_keeps_request_pending s requestId cleartexts proof :
  fst (call (decryptData requestId cleartexts proof) s) = Success tt ->
  requestAt s requestId <> 0 /\
  dataCount (exec (TxDecryptData requestId cleartexts proof) s) = dataCount s /\
  encryptedDataset (exec (TxDecryptData requestId cleartexts proof) s)
    = encryptedDataset s /\
  requestToDataId (exec (TxDecryptData requestId cleartexts proof) s)
    = requestToDataId s /\
  (forall i, i <> requestAt s requestId ->
     decryptedAt (exec (TxDecryptData requestId cleartexts proof) s) i
       = decryptedAt s i) /\
  events (exec (TxDecryptData requestId cleartexts proof) s)
    = events s ++ [DecryptionFulfilled requestId; DataDecrypted (requestAt s requestId)].
Proof.
  intros Hok.
  destruct (decryptData_committed _ _ _ _ Hok)
    as (r0 & r1 & r2 & r3 & rest & sum & o' & Hne & _ & _ & _ & _ & _ & Hexec).
  rewrite Hexec. split; [exact Hne|]. repeat split; try reflexivity.
  intros i Hi. rewrite decryptedAt_revealed_state.
  destruct (decide _); [congruence|reflexivity].
Qed.

(** *** The encrypted record *)

Lemma step_encrypted_stable s r s' i e :
  1 <= i <= dataCount s -> encryptedAt s i = e -> step s r s' ->
  1 <= i <= dataCount s' /\ encryptedAt s' i = e.
Proof.
  intros Hi He Hstep. pose proof (step_dataCount _ _ _ Hstep) as Hmono.
  split; [lia|].
  inversion Hstep; subst; try reflexivity.
  unfold encryptedAt; simpl. rewrite lookup_insert_ne by lia. reflexivity.
Qed.

(** X7. An encrypted record is immutable: once a submit has committed with
    id [n], whatever transactions follow, the entry under [n] holds [n],
    the four handles and the timestamp of that submit; and
    [requestDataDecryption n], while the slot is sealed, hands the library
    exactly these four handles, in the order temperature, humidity,
    vegetation, historical fires, and commits or reverts as the library
    answers. *)
Theorem encrypted_record_immutable s eT eH eV eF now txs st :
  0 <= dataCount s < uint256_max ->
  st = run txs (exec (TxSubmit eT eH eV eF now) s) ->
  encryptedAt st (dataCount s + 1) = mkEncryptedData (dataCount s + 1) eT eH eV eF now /\
  (isRevealed (decryptedAt st (dataCount s + 1)) = false ->
   requestDataDecryption (dataCount s + 1) st =
   match FHE_requestDecryption [eT; eH; eV; eF] sel_decryptData (oracleSt st) with
   | Some (r, o) =>
       Ok tt (log_event (DecryptionRequested (dataCount s + 1))
                (set_request r (dataCount s + 1) (set_oracle o st)))
   | None => Abort LibraryRevert st
   end).
Proof.
  intros Hc Hst.
  assert (encryptedAt st (dataCount s + 1)
          = mkEncryptedData (dataCount s + 1) eT eH eV eF now) as He.
  { rewrite Hst.
    apply (run_state_invariant
             (fun st => 1 <= dataCount s + 1 <= dataCount st /\
                        encryptedAt st (dataCount s + 1)
                          = mkEncryptedData (dataCount s + 1) eT eH eV eF now)).
    - intros st0 r st' [Hi Hst0] Hstep. eapply step_encrypted_stable; eassumption.
    - simpl. unfold call. rewrite submit_spec.
      destruct (dataCount s + 1 <=? uint256_max) eqn:E; [|lia]. simpl.
      split; [lia|]. unfold encryptedAt; simpl. rewrite lookup_insert_eq. reflexivity. }
  split; [exact He|]. intros Hsealed.
  rewrite request_spec, Hsealed. cbv zeta. rewrite He. reflexivity.
Qed.

(** X8. Once the slot of an existing record is marked revealed, every
    later [requestDataDecryption] for it aborts with "Already decrypted",
    whatever happened in between. *)
Theorem revealed_record_never_requested_again s dataId txs :
  1 <= dataId <= dataCount s ->
  isRevealed (decryptedAt s dataId) = true ->
  requestDataDecryption dataId (run txs s)
    = Abort (Revert "Already decrypted") (run txs s) /\
  exec (TxRequestData dataId) (run txs s) = run txs s.
Proof.
  intros Hid Hrev.
  assert (decryptedAt (run txs s) dataId = decryptedAt s dataId) as Hsame.
  { apply run_revealed_stable; [exact Hid|reflexivity|exact Hrev]. }
  assert (requestDataDecryption dataId (run txs s)
          = Abort (Revert "Already decrypted") (run txs s)) as Hab.
  { rewrite request_spec, Hsame, Hrev. reflexivity. }
  split; [exact Hab|]. simpl. unfold call. rewrite Hab. reflexivity.
Qed.

(** *** The event log *)


Lemma step_decrypted_ids s h r s' :
  decrypted_ids (events s) = h -> step s r s' ->
  decrypted_ids (events s') = h ++ option_list r.
Proof.
  intros Hh Hstep. inversion Hstep; subst; simpl;
    rewrite ?decrypted_ids_app, ?app_nil_r; reflexivity.
Qed.

Lemma reachable_decrypted_ids o txs :
  decrypted_ids (events (run txs (deployed o))) = reveal_history txs (deployed o).
Proof.
  apply (run_invariant (fun s h => decrypted_ids (events s) = h)) with (h := []).
  - intros. eapply step_decrypted_ids; eassumption.
  - reflexivity.
Qed.

(** X10. A slot is marked revealed only by a committed [decryptData]: in
    every state the contract can reach, if [getDecryptedData] reports
    [isRevealed] for an id, the id is not 0 and the log holds
    [DataDecrypted] for it. *)
Theorem revealed_slot_has_event o txs dataId :
  isRevealed (decryptedAt (run txs (deployed o)) dataId) = true ->
  dataId <> 0 /\ DataDecrypted dataId ∈ events (run txs (deployed o)).
Proof.
  intros Hrev. destruct (reachable_slots_consistent o txs dataId) as [_ Hr].
  destruct (Hr Hrev) as [Hin Hne]. split; [exact Hne|].
  rewrite <- reachable_decrypted_ids in Hin.
  clear -Hin. induction (events (run txs (deployed o))) as [|e l IH]; simpl in Hin.
  - apply elem_of_nil in Hin. contradiction.
  - destruct e; try (apply elem_of_cons; right; apply IH; exact Hin).
    apply elem_of_cons in Hin as [->|Hin]; apply elem_of_cons; [left; reflexivity|].
    right. apply IH. exact Hin.
Qed.


(** *** Tallies, labels and the log *)

Lemma step_other_labels s r s' :
  (forall c, c <> "High" -> countAt s c = 0) -> step s r s' ->
  forall c, c <> "High" -> countAt s' c = 0.
Proof.
  intros Hz Hstep c Hc. inversion Hstep; subst; try (apply Hz; exact Hc).
  rewrite countAt_revealed_state_other by exact Hc. apply Hz. exact Hc.
Qed.

Lemma reachable_other_labels o txs c :
  c <> "High" -> countAt (run txs (deployed o)) c = 0.
Proof.
  revert c.
  apply (run_state_invariant (fun s => forall c, c <> "High" -> countAt s c = 0)).
  - intros s r s' Hz Hstep. eapply step_other_labels; eassumption.
  - intros c _. unfold countAt; simpl. rewrite lookup_empty. reflexivity.
Qed.

(** X11. Only "High" ever gets a tally: in every state the contract can
    reach, for any other label [getEncryptedRiskCategoryCount] returns the
    uninitialised handle and [requestRiskCategoryDecryption] aborts with
    "Category not found", writing nothing. *)
Theorem other_labels_have_no_tally o txs category :
  category <> "High" ->
  getEncryptedRiskCategoryCount category (run txs (deployed o)) = 0 /\
  requestRiskCategoryDecryption category (run txs (deployed o))
    = Abort (Revert "Category not found") (run txs (deployed o)).
Proof.
  intros Hc. pose proof (reachable_other_labels o txs category Hc) as Hz.
  split; [exact Hz|].
  rewrite requestRiskCategoryDecryption_spec, Hz. reflexivity.
Qed.

(** X12. The tally can be recounted from the log.  With a homomorphic
    [FHE.add], in every state the contract can reach: while the log has no
    [DataDecrypted] event, "High" has no tally and no label is listed;
    once it has [n >= 1] of them, the tally of "High" is initialised and
    stands for [n] modulo [2^32], and "High" is the one label listed. *)
Theorem tally_matches_log (L : FHELaws H) o txs :
  (decrypted_ids (events (run txs (deployed o))) = [] /\
   getEncryptedRiskCategoryCount "High" (run txs (deployed o)) = 0 /\
   riskCategories (run txs (deployed o)) = []) \/
  (1 <= Z.of_nat (length (decrypted_ids (events (run txs (deployed o))))) /\
   FHE_isInitialized (getEncryptedRiskCategoryCount "High" (run txs (deployed o))) = true /\
   decrypt (getEncryptedRiskCategoryCount "High" (run txs (deployed o)))
     = Z.of_nat (length (decrypted_ids (events (run txs (deployed o))))) mod uint32_mod /\
   riskCategories (run txs (deployed o)) = ["High"]).
Proof.
  pose proof (reachable_tally_counts o txs) as Ht.
  rewrite <- reachable_decrypted_ids in Ht. unfold tally_counts in Ht. cbv zeta in Ht.
  unfold getEncryptedRiskCategoryCount.
  destruct Ht as [(Hn & Hc & Hcats)|(Hn & Hc & Hd & Hcats)].
  - left. split; [|split; assumption].
    destruct (decrypted_ids _); [reflexivity|simpl in Hn; lia].
  - right. split; [exact Hn|]. split; [apply isInitialized_true; exact Hc|].
    split; [exact Hd|exact Hcats].
Qed.

(** X13. The list of labels and the tallies agree.  With a library whose
    fresh handles are initialised, in every state the contract can reach
    a label is listed in [riskCategories] exactly when its tally is
    initialised, and no label is listed twice. *)
Theorem labels_match_tallies (L : FHELaws H) o txs category :
  (category ∈ riskCategories (run txs (deployed o))
   <-> FHE_isInitialized
         (getEncryptedRiskCategoryCount category (run txs (deployed o))) = true) /\
  NoDup (riskCategories (run txs (deployed o))).
Proof.
  pose proof (reachable_tally_counts o txs) as Ht.
  unfold tally_counts in Ht. cbv zeta in Ht. unfold getEncryptedRiskCategoryCount.
  destruct (decide (category = "High")) as [->|Hne].
  - destruct Ht as [(_ & Hc & Hcats)|(_ & Hc & _ & Hcats)]; rewrite Hcats.
    + split; [|constructor]. rewrite Hc. split; [|discriminate].
      intros Hin. apply elem_of_nil in Hin. contradiction.
    + split; [|apply NoDup_singleton]. split.
      * intros _. apply isInitialized_true. exact Hc.
      * intros _. apply list_elem_of_singleton. reflexivity.
  - rewrite (reachable_other_labels o txs category Hne).
    assert (NoDup (riskCategories (run txs (deployed o)))) as Hnd.
    { destruct Ht as [(_ & _ & ->)|(_ & _ & _ & ->)];
        [constructor|apply NoDup_singleton]. }
    split; [|exact Hnd]. split; [|discriminate].
    intros Hin. pose proof (reachable_categories o txs) as Hall.
    rewrite Forall_forall in Hall. apply Hall in Hin. congruence.
Qed.

(** *** The pending-request index *)

Lemma step_index_from_requests s r s' :
  index_from_requests s -> step s r s' -> index_from_requests s'.
Proof.
  intros [Hz Hidx] Hstep. split; [eapply step_other_labels; eassumption|].
  inversion Hstep
    as [s0|s0 eT eH eV eF now Hmax|s0 dataId q oq Hsealed
       |s0 requestId dataId r0 r1 r2 r3 sum o' Hne Hsealed Hinc
       |s0 category q oq Hinit|s0 requestId]; subst.
  - exact Hidx.
  - intros k Hk. destruct (Hidx k Hk) as [Hin|Hh]; [left|right; exact Hh].
    simpl. apply elem_of_app. left. exact Hin.
  - intros k. rewrite requestAt_logged_request_any.
    destruct (decide (q = k)) as [->|Hne]; intros Hk.
    + left. simpl. apply elem_of_app. right. apply list_elem_of_singleton. reflexivity.
    + destruct (Hidx k Hk) as [Hin|Hh]; [left|right; exact Hh].
      simpl. apply elem_of_app. left. exact Hin.
  - intros k Hk. destruct (Hidx k Hk) as [Hin|Hh]; [left|right; exact Hh].
    simpl. apply elem_of_app. left. exact Hin.
  - intros k. rewrite requestAt_set_request_oracle.
    destruct (decide (q = k)) as [->|Hne]; intros Hk.
    + right. destruct (decide (category = "High")) as [Hc|Hc].
      * rewrite Hc. unfold categoryHash. exact eq_refl.
      * rewrite (Hz category Hc) in Hinit. discriminate.
    + exact (Hidx k Hk).
  - intros k Hk. destruct (Hidx k Hk) as [Hin|Hh]; [left|right; exact Hh].
    simpl. apply elem_of_app. left. exact Hin.
Qed.

Lemma reachable_index_from_requests o txs : index_from_requests (run txs (deployed o)).
Proof.
  apply (run_state_invariant index_from_requests).
  - intros s r s' Hi Hstep. eapply step_index_from_requests; eassumption.
  - split.
    + intros c _. unfold countAt; simpl. rewrite lookup_empty. reflexivity.
    + intros r. unfold requestAt; simpl. rewrite lookup_empty. simpl. congruence.
Qed.

(** X14. Nothing but a request fills the pending-request index.  In every
    state the contract can reach, a request id that resolves to a non-zero
    target resolves either to an id for which [DecryptionRequested] is in
    the log, or to the hash of "High"; and [decryptRiskCategory] commits
    only for request ids that resolve to the hash of "High". *)
Theorem pending_targets_come_from_requests o txs requestId :
  (requestAt (run txs (deployed o)) requestId <> 0 ->
   DecryptionRequested (requestAt (run txs (deployed o)) requestId)
     ∈ events (run txs (deployed o))
   \/ requestAt (run txs (deployed o)) requestId = categoryHash "High") /\
  (forall cleartexts proof count s',
     decryptRiskCategory requestId cleartexts proof (run txs (deployed o)) = Ok count s' ->
     requestAt (run txs (deployed o)) requestId = categoryHash "High").
Proof.
  split.
  - intros Hne. destruct (reachable_index_from_requests o txs) as [_ Hidx].
    apply Hidx. exact Hne.
  - intros cleartexts proof count s'. rewrite decryptRiskCategory_spec.
    destruct (scanCategories _ _) as [c|] eqn:Es; [|discriminate].
    intros _. apply scanCategories_Some in Es as (i & Hi & Hh & _).
    pose proof (reachable_categories o txs) as Hall. rewrite Forall_forall in Hall.
    assert (c = "High") as -> by (apply Hall, list_elem_of_lookup; eauto).
    symmetry. exact Hh.
Qed.

(** X16. A label that is listed is found by its hash: for every label of
    [riskCategories], the lookup of its hash returns a label with the same
    hash and does not revert. *)
Theorem listed_label_is_found s category :
  category ∈ riskCategories s ->
  exists c, getCategoryFromHash (categoryHash category) s = Ok c s /\
            c ∈ riskCategories s /\ categoryHash c = categoryHash category.
Proof.
  intros Hin. unfold getCategoryFromHash, bind, gets, ret, abort.
  destruct (scanCategories (riskCategories s) (categoryHash category)) as [c|] eqn:E.
  - exists c. split; [reflexivity|].
    apply scanCategories_Some in E as (i & Hi & Hh & _).
    split; [|exact Hh]. apply list_elem_of_lookup. exists i. exact Hi.
  - exfalso. apply (scanCategories_None _ _ E category Hin). reflexivity.
Qed.

(** X17. [decryptData] commits exactly when its request resolves to a
    non-zero id, the slot of that id is not revealed, the oracle accepts
    the proof, the cleartexts decode to an array of at least four strings,
    and the library carries out the tally update ([FHE.asEuint32(0)] when
    there is no tally yet, [FHE.asEuint32(1)] and [FHE.add]). *)
Theorem decryptData_commits_iff s requestId cleartexts proof :
  fst (call (decryptData requestId cleartexts proof) s) = Success tt <->
  requestAt s requestId <> 0 /\
  isRevealed (decryptedAt s (requestAt s requestId)) = false /\
  FHE_checkSignatures requestId cleartexts proof (oracleSt s) = true /\
  (exists results, abi_decode_string_array cleartexts = Some results /\
                   (4 <= length results)%nat) /\
  (exists sum o',
     tally_increment (getEncryptedRiskCategoryCount "High" s) (oracleSt s)
       = Some (sum, o')).
Proof.
  unfold getEncryptedRiskCategoryCount. split.
  - intros Hok.
    destruct (decryptData_committed _ _ _ _ Hok)
      as (r0 & r1 & r2 & r3 & rest & sum & o' & Hne & Hs & Hsig & Hdec & Ht & _).
    split; [exact Hne|]. split; [exact Hs|]. split; [exact Hsig|]. split.
    + eexists. split; [exact Hdec|simpl; lia].
    + eauto.
  - intros (Hne & Hs & Hsig & (results & Hdec & Hlen) & (sum & o' & Ht)).
    pose proof (decryptData_spec requestId cleartexts proof s) as Hsp. cbv zeta in Hsp.
    rewrite Hs, Hsig, Hdec, Ht in Hsp.
    destruct (requestAt s requestId =? 0) eqn:E0; [lia|]. simpl in Hsp.
    destruct results as [|r0 [|r1 [|r2 [|r3 rest]]]]; simpl in Hlen; try lia.
    unfold call. rewrite Hsp. reflexivity.
Qed.

Lemma step_revealed_bound s h r s' :
  (size (revealed_ids s) <= length h)%nat -> step s r s' ->
  (size (revealed_ids s') <= length (h ++ option_list r))%nat.
Proof.
  intros Hle Hstep. inversion Hstep; subst; simpl; rewrite ?app_nil_r; try exact Hle.
  - etransitivity; [|exact Hle]. apply subseteq_size. intros i.
    rewrite !elem_of_revealed_ids, decryptedAt_submitted.
    destruct (decide _); [discriminate|tauto].
  - assert (revealed_ids (revealed_state s requestId dataId r0 r1 r2 r3 sum o')
            = {[dataId]} ∪ revealed_ids s) as ->.
    { apply set_eq. intros i.
      rewrite elem_of_union, elem_of_singleton, !elem_of_revealed_ids,
        decryptedAt_revealed_state.
      destruct (decide (dataId = i)) as [<-|]; simpl; [tauto|].
      split; [tauto|]. intros [->|]; [congruence|assumption]. }
    rewrite size_union, size_singleton, length_app; [simpl; lia|].
    apply disjoint_singleton_l. rewrite elem_of_revealed_ids. congruence.
Qed.

(** X18. There are never more revealed slots than reveal events: in every
    state the contract can reach, the number of ids whose slot is marked
    revealed is at most the number of [DataDecrypted] events in the log. *)
Theorem revealed_slots_at_most_events o txs :
  (size (revealed_ids (run txs (deployed o)))
   <= length (decrypted_ids (events (run txs (deployed o)))))%nat.
Proof.
  rewrite reachable_decrypted_ids.
  apply (run_invariant (fun s h => (size (revealed_ids s) <= length h)%nat))
    with (h := []).
  - intros. eapply step_revealed_bound; eassumption.
  - rewrite revealed_ids_deployed, size_empty. simpl. lia.
Qed.


(** *** One record from submission to reveal *)


End Properties.

(** ** The reference host, and the claims on concrete runs *)

Lemma refHost_laws : FHELaws refHost.
Proof.
  split; simpl; unfold ref_decrypt, uint32_mod.
  - intros v o h o' [= <- <-]. pose proof (Z.mod_pos_bound v (2 ^ 32) ltac:(lia)). lia.
  - intros a b o h o' [= <- <-].
    pose proof (Z.mod_pos_bound ((a - 1) mod 2 ^ 32 + (b - 1) mod 2 ^ 32) (2 ^ 32)
                  ltac:(lia)). lia.
  - intros v o h o' Hv [= <- <-].
    replace (1 + v mod 2 ^ 32 - 1) with (v mod 2 ^ 32) by lia.
    rewrite Z.mod_mod by lia. apply Z.mod_small. exact Hv.
  - intros a b o h o' [= <- <-].
    replace (1 + ((a - 1) mod 2 ^ 32 + (b - 1) mod 2 ^ 32) mod 2 ^ 32 - 1)
      with (((a - 1) mod 2 ^ 32 + (b - 1) mod 2 ^ 32) mod 2 ^ 32) by lia.
    apply Z.mod_mod. lia.
Qed.

Lemma refHost_refuses : RefusesUninitialised refHost.
Proof.
  split. intros cts sel o Hin. simpl. unfold ref_requestDecryption.
  assert (existsb (Z.eqb 0) cts = true) as ->; [|reflexivity].
  apply existsb_exists. exists 0. split; [|reflexivity].
  apply list_elem_of_In. exact Hin.
Qed.




Example three_submits :
  submitted_ids (events (run [ TxSubmit 1 2 3 4 10; TxSubmit 5 6 7 8 20;
                               TxSubmit 9 10 11 12 30 ] ref_deployed)) = [1; 2; 3].
Proof. vm_compute. reflexivity. Qed.



Lemma reveal_write_once_witness :
  decryptData 0 scenario_cleartexts (ref_proof 0 scenario_cleartexts) scenario_s1
    = Ok tt scenario_s2
  /\ getDecryptedData 1 scenario_s2 = ("20", "55", "0.3", "2", true).
Proof.
  destruct (reveal_write_once (H := refHost) scenario_s0 1 0
              (mkRefOracle 1 [(0, (sel_decryptData, [11; 12; 13; 14]))])
              [] scenario_cleartexts (ref_proof 0 scenario_cleartexts)
              "20" "55" "0.3" "2" [] 2
              (mkRefOracle 1 [(0, (sel_decryptData, [11; 12; 13; 14]))])
              scenario_s1 scenario_s2) as (_ & Hcb & Hget & _).
  - assert (dataCount scenario_s0 = 1) as -> by (vm_compute; reflexivity). lia.
  - vm_compute. reflexivity.
  - vm_compute. reflexivity.
  - reflexivity.
  - vm_compute. reflexivity.
  - vm_compute. reflexivity.
  - vm_compute. reflexivity.
  - vm_compute. reflexivity.
  - vm_compute. reflexivity.
  - reflexivity.
  - split; [exact Hcb|exact Hget].
Defined.

Lemma proof_checked_before_any_mutation_witness :
  exec (TxDecryptData 0 scenario_cleartexts (ref_proof 1 scenario_cleartexts))
    scenario_s1 = scenario_s1.
Proof.
  destruct (proof_checked_before_any_mutation (H := refHost) scenario_s1 0
              scenario_cleartexts (ref_proof 1 scenario_cleartexts))
    as (_ & Hsame & _).
  - vm_compute. reflexivity.
  - exact Hsame.
Defined.

Lemma requestDataDecryption_preconditions_witness :
  requestDataDecryption 7 scenario_s0 = Abort LibraryRevert scenario_s0
  /\ exec (TxRequestData 7) scenario_s0 = scenario_s0.
Proof.
  destruct (requestDataDecryption_preconditions (H := refHost) refHost_refuses
              (mkRefOracle 0 []) [TxSubmit 11 12 13 14 1700000000] scenario_s0 7)
    as (_ & Hmiss & _ & Hsame & _).
  - reflexivity.
  - left. assert (dataCount scenario_s0 = 1) as -> by (vm_compute; reflexivity). lia.
  - split; [|exact Hsame]. apply Hmiss. vm_compute. reflexivity.
Defined.

Lemma unknown_request_rejected_witness :
  decryptData 5 scenario_cleartexts (ref_proof 5 scenario_cleartexts)
    (run scenario_txs (deployed (mkRefOracle 0 [])))
  = Abort (Revert "Invalid request") (run scenario_txs (deployed (mkRefOracle 0 []))).
Proof.
  refine (proj1 (unknown_request_rejected (H := refHost) (mkRefOracle 0 []) scenario_txs
                   _ 5 scenario_cleartexts (ref_proof 5 scenario_cleartexts) eq_refl _)).
  vm_compute. reflexivity.
Defined.




Lemma record_store_invariant_witness :
  exists e d,
    encryptedDataset (run scenario_txs (deployed (mkRefOracle 0 []))) !! 1 = Some e /\
    id e = 1 /\
    decryptedDataset (run scenario_txs (deployed (mkRefOracle 0 []))) !! 1 = Some d /\
    DataSubmitted 1 (timestamp e) ∈ events (run scenario_txs (deployed (mkRefOracle 0 []))).
Proof.
  apply (proj2 (proj2 (record_store_invariant (H := refHost)))
           (mkRefOracle 0 []) scenario_txs 1).
  assert (dataCount (run scenario_txs (deployed (mkRefOracle 0 []))) = 1) as ->
    by (vm_compute; reflexivity).
  lia.
Defined.

Lemma getDecryptedData_unrevealed_witness :
  getDecryptedData 2 (run scenario_txs (deployed (mkRefOracle 0 [])))
  = ("", "", "", "", false).
Proof.
  apply (proj2 (getDecryptedData_unrevealed (H := refHost) (mkRefOracle 0 []) scenario_txs)).
  assert (reveal_history scenario_txs (deployed (mkRefOracle 0 [])) = [1]) as ->
    by (vm_compute; reflexivity).
  intros Hin. apply list_elem_of_singleton in Hin. discriminate.
Defined.

Lemma computeRiskCategory_constant_witness :
  getEncryptedRiskCategoryCount "Low"
    (exec (TxDecryptData 0 scenario_cleartexts (ref_proof 0 scenario_cleartexts))
       scenario_s1)
  = getEncryptedRiskCategoryCount "Low" scenario_s1.
Proof.
  refine (proj2 (proj2 (computeRiskCategory_constant (H := refHost)) scenario_s1 0
                   scenario_cleartexts (ref_proof 0 scenario_cleartexts) _) "Low" _).
  - vm_compute. reflexivity.
  - discriminate.
Defined.

Lemma short_cleartexts_abort_witness :
  exec (TxDecryptData 0 short_cleartexts (ref_proof 0 short_cleartexts)) scenario_s1
  = scenario_s1.
Proof.
  destruct (short_cleartexts_abort (H := refHost) scenario_s1 0 short_cleartexts
              (ref_proof 0 short_cleartexts) ["20"; "55"]) as (_ & Hshort & _).
  - vm_compute. reflexivity.
  - destruct Hshort as (_ & Hsame & _); [simpl; lia|]. exact Hsame.
Defined.

(** ** The further properties on concrete runs *)

Lemma category_request_outcomes_witness :
  requestRiskCategoryDecryption "High" ref_deployed
  = Abort (Revert "Category not found") ref_deployed.
Proof.
  apply (proj1 (category_request_outcomes (H := refHost) ref_deployed "High")).
  vm_compute. reflexivity.
Defined.

Lemma getCategoryFromHash_first_match_witness :
  exists i, riskCategories (run scenario_txs ref_deployed) !! i = Some "High"
            /\ categoryHash "High" = categoryHash "High"
            /\ forall j c', (j < i)%nat ->
                 riskCategories (run scenario_txs ref_deployed) !! j = Some c' ->
                 categoryHash c' <> categoryHash "High".
Proof.
  apply (proj1 (getCategoryFromHash_first_match (H := refHost) (categoryHash "High")
                  (run scenario_txs ref_deployed)) "High" (run scenario_txs ref_deployed)).
  unfold getCategoryFromHash, bind, gets, ret.
  assert (riskCategories (run scenario_txs ref_deployed) = ["High"]) as ->
    by (vm_compute; reflexivity).
  unfold categoryHash. rewrite scanCategories_head. reflexivity.
Defined.

Lemma decryptRiskCategory_keeps_storage_witness :
  decryptRiskCategory 0 scenario_cleartexts (ref_proof 0 scenario_cleartexts) ref_deployed
  = Abort (Revert "Category not found") ref_deployed.
Proof.
  apply (proj2 (proj2 (decryptRiskCategory_keeps_storage (H := refHost) ref_deployed 0
                         scenario_cleartexts (ref_proof 0 scenario_cleartexts)))).
  intros c Hc. apply elem_of_nil in Hc. contradiction.
Defined.

Lemma submit_touches_only_new_id_witness :
  events (exec (TxSubmit 21 22 23 24 1700000100) scenario_s1)
  = events scenario_s1 ++ [DataSubmitted (dataCount scenario_s1 + 1) 1700000100].
Proof.
  apply (submit_touches_only_new_id (H := refHost) scenario_s1 21 22 23 24 1700000100).
  vm_compute. reflexivity.
Defined.

Lemma decryptData_keeps_request_pending_witness :
  events (exec (TxDecryptData 0 scenario_cleartexts (ref_proof 0 scenario_cleartexts))
            scenario_s1)
  = events scenario_s1 ++ [DecryptionFulfilled 0; DataDecrypted (requestAt scenario_s1 0)].
Proof.
  apply (decryptData_keeps_request_pending (H := refHost) scenario_s1 0
           scenario_cleartexts (ref_proof 0 scenario_cleartexts)).
  vm_compute. reflexivity.
Defined.

Lemma encrypted_record_immutable_witness :
  encryptedAt (run scenario_txs (exec (TxSubmit 31 32 33 34 1600000000) ref_deployed))
    (dataCount ref_deployed + 1)
  = mkEncryptedData (dataCount ref_deployed + 1) 31 32 33 34 1600000000.
Proof.
  refine (proj1 (encrypted_record_immutable (H := refHost) ref_deployed
                   31 32 33 34 1600000000 scenario_txs _ _ eq_refl)).
  change (0 <= 0 < uint256_max). unfold uint256_max. lia.
Defined.

Lemma revealed_record_never_requested_again_witness :
  exec (TxRequestData 1) (run [TxSubmit 41 42 43 44 1700000200] scenario_s2)
  = run [TxSubmit 41 42 43 44 1700000200] scenario_s2.
Proof.
  apply (revealed_record_never_requested_again (H := refHost) scenario_s2 1
           [TxSubmit 41 42 43 44 1700000200]).
  - assert (dataCount scenario_s2 = 1) as -> by (vm_compute; reflexivity). lia.
  - vm_compute. reflexivity.
Defined.

Lemma revealed_slot_has_event_witness :
  1 <> 0 /\ DataDecrypted 1 ∈ events (run scenario_txs (deployed (mkRefOracle 0 []))).
Proof.
  apply (revealed_slot_has_event (H := refHost) (mkRefOracle 0 []) scenario_txs 1).
  vm_compute. reflexivity.
Defined.

Lemma other_labels_have_no_tally_witness :
  getEncryptedRiskCategoryCount "Low" (run scenario_txs (deployed (mkRefOracle 0 []))) = 0.
Proof.
  apply (other_labels_have_no_tally (H := refHost) (mkRefOracle 0 []) scenario_txs "Low").
  discriminate.
Defined.

Lemma tally_matches_log_witness :
  (decrypted_ids (events (run scenario_txs (deployed (mkRefOracle 0 [])))) = [] /\
   getEncryptedRiskCategoryCount "High" (run scenario_txs (deployed (mkRefOracle 0 []))) = 0 /\
   riskCategories (run scenario_txs (deployed (mkRefOracle 0 []))) = []) \/
  (1 <= Z.of_nat (length (decrypted_ids
                            (events (run scenario_txs (deployed (mkRefOracle 0 [])))))) /\
   FHE_isInitialized
     (getEncryptedRiskCategoryCount "High" (run scenario_txs (deployed (mkRefOracle 0 []))))
   = true /\
   decrypt (getEncryptedRiskCategoryCount "High" (run scenario_txs (deployed (mkRefOracle 0 []))))
   = Z.of_nat (length (decrypted_ids
                         (events (run scenario_txs (deployed (mkRefOracle 0 []))))))
     mod uint32_mod /\
   riskCategories (run scenario_txs (deployed (mkRefOracle 0 []))) = ["High"]).
Proof.
  exact (tally_matches_log (H := refHost) refHost_laws (mkRefOracle 0 []) scenario_txs).
Defined.

Lemma labels_match_tallies_witness :
  NoDup (riskCategories (run scenario_txs (deployed (mkRefOracle 0 [])))).
Proof.
  exact (proj2 (labels_match_tallies (H := refHost) refHost_laws (mkRefOracle 0 [])
                  scenario_txs "High")).
Defined.

Lemma pending_targets_come_from_requests_witness :
  DecryptionRequested (requestAt (run scenario_txs (deployed (mkRefOracle 0 []))) 0)
    ∈ events (run scenario_txs (deployed (mkRefOracle 0 [])))
  \/ requestAt (run scenario_txs (deployed (mkRefOracle 0 []))) 0 = categoryHash "High".
Proof.
  apply (proj1 (pending_targets_come_from_requests (H := refHost) (mkRefOracle 0 [])
                  scenario_txs 0)).
  assert (requestAt (run scenario_txs (deployed (mkRefOracle 0 []))) 0 = 1) as ->
    by (vm_compute; reflexivity).
  discriminate.
Defined.

Lemma listed_label_is_found_witness :
  exists c, getCategoryFromHash (categoryHash "High") (run scenario_txs ref_deployed)
            = Ok c (run scenario_txs ref_deployed) /\
            c ∈ riskCategories (run scenario_txs ref_deployed) /\
            categoryHash c = categoryHash "High".
Proof.
  apply (listed_label_is_found (H := refHost) (run scenario_txs ref_deployed) "High").
  assert (riskCategories (run scenario_txs ref_deployed) = ["High"]) as ->
    by (vm_compute; reflexivity).
  apply list_elem_of_singleton. reflexivity.
Defined.

Lemma decryptData_commits_iff_witness :
  fst (call (decryptData 0 scenario_cleartexts (ref_proof 0 scenario_cleartexts))
         scenario_s1) = Success tt.
Proof.
  apply (proj2 (decryptData_commits_iff (H := refHost) scenario_s1 0 scenario_cleartexts
                  (ref_proof 0 scenario_cleartexts))).
  split.
  { assert (requestAt scenario_s1 0 = 1) as -> by (vm_compute; reflexivity). discriminate. }
  split; [vm_compute; reflexivity|].
  split; [vm_compute; reflexivity|].
  split.
  - exists ["20"; "55"; "0.3"; "2"]. split; [exact ref_decode_scenario|simpl; lia].
  - exists 2, (mkRefOracle 1 [(0, (sel_decryptData, [11; 12; 13; 14]))]).
    vm_compute. reflexivity.
Defined.
